(** * mermAId: the diagram-generation control loop

    A shallow embedding of the chat participant's conversation loop
    ([src/chat/chatParticipant.ts]), of the validating webview panel
    ([src/diagramEditorPanel.ts]) and of the [Diagram] value with its
    fence-stripping constructor, together with the properties the specification
    states about them; then of the navigate handler's path test and of the
    outline view's loop ([src/outlineView.ts]), with further properties
    read off the code.

    Conventions.  A JavaScript string is a [string]: a sequence of
    eight-bit code units (the Latin-1 range of UTF-16).  A record of the
    source becomes a [Record]; a closure variable becomes a field of the
    turn's state; an external collaborator (the language model, the
    webview, the tool invoker, the clock) becomes a field of [Env]. *)

From Stdlib Require Import String Ascii ZArith Lia Bool.
From stdpp Require Import gmap strings list pretty.

Local Open Scope string_scope.
Local Open Scope list_scope.

(** ** JavaScript string primitives used by the sources *)

Module Str.

(** The first [n] code units of [s] ([s.slice(0, n)]). *)
Fixpoint take (n : nat) (s : string) : string :=
  match n, s with
  | S n', String c s' => String c (take n' s')
  | _, _ => ""
  end.

(** [s] without its first [n] code units ([s.slice(n)]). *)
Fixpoint drop (n : nat) (s : string) : string :=
  match n, s with
  | S n', String _ s' => drop n' s'
  | _, _ => s
  end.

(** [s.startsWith(p)]: what a regular expression [/^p/] tests when [p]
    is a literal. *)
Fixpoint startsWith (s p : string) {struct p} : bool :=
  match p, s with
  | "", _ => true
  | String a p', String b s' => Ascii.eqb a b && startsWith s' p'
  | String _ _, "" => false
  end.

(** [s.endsWith(p)]: what [/p$/] tests when [p] is a literal (no [m]
    flag, so [$] is the end of the input only). *)
Definition endsWith (s p : string) : bool :=
  (String.length p <=? String.length s)%nat
  && String.eqb (drop (String.length s - String.length p) s) p.

(** [s.includes(t)]. *)
Fixpoint includes (s t : string) : bool :=
  startsWith s t ||
  match s with
  | "" => false
  | String _ s' => includes s' t
  end.

(** [s.indexOf(t)]: the least position at which [t] occurs, or -1. *)
Fixpoint indexOf (s t : string) : Z :=
  if startsWith s t then 0%Z
  else match s with
       | "" => (-1)%Z
       | String _ s' =>
           let i := indexOf s' t in
           if (i <? 0)%Z then (-1)%Z else (i + 1)%Z
       end.

(** [s.replace(/^p/, '')] for a literal [p]. *)
Definition replace_leading (p s : string) : string :=
  if startsWith s p then drop (String.length p) s else s.

(** [s.replace(/p$/, '')] for a literal [p]. *)
Definition replace_trailing (p s : string) : string :=
  if endsWith s p then take (String.length s - String.length p) s else s.

(** ECMAScript WhiteSpace and LineTerminator code units below 256:
    TAB, LF, VT, FF, CR, SP and NBSP. *)
Definition isWhiteSpace (c : ascii) : bool :=
  match nat_of_ascii c with
  | 9 | 10 | 11 | 12 | 13 | 32 | 160 => true
  | _ => false
  end.

Fixpoint trimStart (s : string) : string :=
  match s with
  | "" => ""
  | String c s' => if isWhiteSpace c then trimStart s' else s
  end.

Fixpoint trimEnd (s : string) : string :=
  match s with
  | "" => ""
  | String c s' =>
      match trimEnd s' with
      | "" => if isWhiteSpace c then "" else String c ""
      | t => String c t
      end
  end.

(** [s.trim()]. *)
Definition trim (s : string) : string := trimEnd (trimStart s).

(** The specification's reading of "[s] contains [t]". *)
Definition Contains (s t : string) : Prop :=
  exists pre post, s = pre +:+ t +:+ post.

End Str.

(** ** [Diagram]: the class whose constructor strips the fences *)

Definition fence : string := "```".
Definition fence_mermaid : string := "```mermaid".

(** The constructor's transformation of the raw text:
    [.replace(/^```mermaid/, '').replace(/```$/, '').trim()]. *)
Definition normalize (raw : string) : string :=
  Str.trim (Str.replace_trailing fence (Str.replace_leading fence_mermaid raw)).

Record Diagram := mkDiagram { content : string }.

(** [new Diagram(raw)]. *)
Definition newDiagram (raw : string) : Diagram :=
  {| content := normalize raw |}.

Definition LF : string := String (ascii_of_nat 10) "".
Definition DQ : string := String (ascii_of_nat 34) "".

(** ** The webview panel (src/diagramEditorPanel.ts) *)

(** [ParseDetails]: a 'parse-result' message posted by the webview. *)
Inductive ParseDetails :=
| ParseSuccess (nonce : string)
| ParseFailure (error nonce : string) (friendlyError : option string).

Definition pd_nonce (p : ParseDetails) : string :=
  match p with
  | ParseSuccess n => n
  | ParseFailure _ n _ => n
  end.

(** What [_validate] resolves to:
    [{ success: true } | { success: false, error: string }]. *)
Inductive ValidateResult :=
| Success
| Failure (error : string).

(** The documents assigned to [webview.html]. *)
Inductive Html :=
| HtmlToValidateMermaid (diagram : Diagram) (nonce : string)
| HtmlForWebview (diagram : Diagram).

(** The fields of a [DiagramEditorPanel] that the validation reads or
    writes.  [webview_html] lists every document assigned to
    [_panel.webview.html], oldest first: each assignment of a
    [HtmlToValidateMermaid] document is one run of the rendering engine's
    parser.  The title is a constant and is left out. *)
Record DiagramEditorPanel := mkPanel {
  _diagram : Diagram;
  parseDetails : list ParseDetails;
  webview_html : list Html
}.

(** The [diagram] getter. *)
Definition diagram (this : DiagramEditorPanel) : Diagram := _diagram this.

(** ** The chat participant's data (src/chat/chatParticipant.ts) *)

Inductive Role := User | Assistant.

Record LanguageModelChatMessage := mkMessage {
  msg_role : Role;
  msg_content : string
}.

Definition UserMessage (text : string) : LanguageModelChatMessage :=
  {| msg_role := User; msg_content := text |}.

Record LanguageModelToolCallPart := mkToolCall {
  callId : string;
  name : string;
  input : string
}.

(** The result of a tool: text, or the text of its failure. *)
Definition LanguageModelToolResult := string.

(** [ToolResultMetadata(toolCallId, result)]. *)
Definition ToolResultMetadata := (string * LanguageModelToolResult)%type.

(** One element of the response stream.  [GroqChunk] is an object with a
    [choices] property; its argument is [choices[0]?.delta?.content]. *)
Inductive ResponsePart :=
| TextPart (value : string)
| ToolCallPart (call : LanguageModelToolCallPart)
| GroqChunk (delta_content : option string)
| OtherPart.

Record ToolCallRound := mkRound {
  response : string;
  toolCalls : list LanguageModelToolCallPart
}.

(** What the handler does to the [ChatResponseStream]. *)
Inductive StreamEvent :=
| markdown (value : string)
| progress (value : string)
| button (command : string) (argument : string)
| reference (anchor : string).

(** The anchor of a prompt reference. *)
Inductive Anchor :=
| UriAnchor (uri : string)
| LocationAnchor (location : string)
| VariableAnchor (variableName : string).

Record GroqMessage := mkGroqMessage {
  groq_role : string;
  groq_content : string
}.

(** The collaborators of one turn.  Each oracle that may answer
    differently from one call to the next takes the number of earlier
    calls as its first argument. *)
Record Env := mkEnv {
  (** [request.command] *)
  request_command : option string;
  (** the names of [vscode.lm.tools] *)
  tool_names : list string;
  (** the messages the prompt renders from the round history and the tool
      results (opaque prompt content) *)
  promptMessages :
    list ToolCallRound -> list ToolResultMetadata -> list LanguageModelChatMessage;
  (** the references of the first rendered prompt *)
  promptReferences : list Anchor;
  (** [model.sendRequest(messages, options, token)], drained *)
  sendRequest : nat -> list LanguageModelChatMessage -> list ResponsePart;
  (** [process.env.GROQ_API_KEY] *)
  GROQ_API_KEY : option string;
  (** [groq.chat.completions.create], drained *)
  groq_create : nat -> list GroqMessage -> list ResponsePart;
  (** [vscode.lm.invokeTool] *)
  invokeTool : nat -> LanguageModelToolCallPart -> LanguageModelToolResult;
  (** [new Date().getTime()] during the n-th round *)
  getTime : nat -> N;
  (** the 'parse-result' messages the webview posts, after it was given a
      document, before the i-th firing of the polling interval *)
  webview_posts : Html -> nat -> list ParseDetails;
  (** [JSON.stringify] of a posted message *)
  JSON_stringify : ParseDetails -> string;
  (** the command identifier imported from '../commands' *)
  COMMAND_OPEN_MARKDOWN_FILE : string
}.

(** ** [DiagramEditorPanel]: message handler, polling, [_validate],
       [createOrShow] *)

(** The panel together with the lines appended to the output channel. *)
Definition PanelLog := (DiagramEditorPanel * list string)%type.

(** The [onDidReceiveMessage] handler, case 'parse-result'. *)
Definition onDidReceiveMessage (E : Env) (st : PanelLog) (message : ParseDetails)
  : PanelLog :=
  let '(this, log) := st in
  ({| _diagram := _diagram this;
      parseDetails := parseDetails this ++ [message];
      webview_html := webview_html this |},
   log ++ ["(Chat) Parse Result: " +:+ JSON_stringify E message]).

(** The [setInterval] callback of [_validate], fired until it finds a
    parse result carrying [nonce].  [tick] counts the firings; before each
    one the handler has received [posts tick].  [None]: the promise is
    still pending after [fuel] firings. *)
Fixpoint poll (E : Env) (posts : nat -> list ParseDetails) (nonce : string)
    (fuel tick : nat) (st : PanelLog) : option (ParseDetails * PanelLog) :=
  match fuel with
  | O => None
  | S fuel' =>
      let st' := fold_left (onDidReceiveMessage E) (posts tick) st in
      match find (fun p => String.eqb (pd_nonce p) nonce) (parseDetails (fst st')) with
      | Some pd => Some (pd, st')
      | None => poll E posts nonce fuel' (S tick) st'
      end
  end.

Definition extra_fence_error : string := "diagram contains extra ``` characters".

(** [this._validate(diagram?)]. *)
Definition _validate (E : Env) (pollFuel time : nat) (st : PanelLog)
    (diagram : option Diagram) : option (ValidateResult * PanelLog) :=
  let '(this0, log) := st in
  let this :=
    match diagram with
    | Some d => {| _diagram := d;
                   parseDetails := parseDetails this0;
                   webview_html := webview_html this0 |}
    | None => this0
    end in
  if (0 <=? Str.indexOf (content (_diagram this)) fence)%Z then
    Some (Failure extra_fence_error, (this, log))
  else
    let nonce := pretty (getTime E time) in
    let doc := HtmlToValidateMermaid (_diagram this) nonce in
    let this1 := {| _diagram := _diagram this;
                    parseDetails := parseDetails this;
                    webview_html := webview_html this ++ [doc] |} in
    match poll E (webview_posts E doc) nonce pollFuel 0 (this1, log) with
    | None => None
    | Some (ParseSuccess _, (this2, log2)) =>
        Some (Success,
              ({| _diagram := _diagram this2;
                  parseDetails := parseDetails this2;
                  webview_html := webview_html this2 ++ [HtmlForWebview (_diagram this2)] |},
               log2))
    | Some (ParseFailure error _ _, st2) => Some (Failure error, st2)
    end.

(** [DiagramEditorPanel.createOrShow(diagram)], on the static
    [currentPanel]; the panel it returns is the new [currentPanel]. *)
Definition createOrShow (E : Env) (pollFuel time : nat)
    (currentPanel : option DiagramEditorPanel) (log : list string) (d : Diagram)
  : option (ValidateResult * PanelLog) :=
  match currentPanel with
  | Some this =>
      _validate E pollFuel time (this, log ++ ["Revealing existing panel"]) (Some d)
  | None =>
      _validate E pollFuel time
        ({| _diagram := d; parseDetails := []; webview_html := [] |},
         log ++ ["Creating new panel"])
        None
  end.

(** ** The conversation loop (src/chat/chatParticipant.ts) *)

(** The local variables of the [for await] loop over [response.stream],
    and what the loop wrote to the chat stream. *)
Record StreamLoop := mkLoop {
  isMermaidDiagramStreamingIn : bool;
  mermaidDiagram : string;
  responseStr : string;
  totalResponse : string;
  loop_toolCalls : list LanguageModelToolCallPart;
  emitted : list StreamEvent
}.

Definition loop_init : StreamLoop :=
  {| isMermaidDiagramStreamingIn := false;
     mermaidDiagram := "";
     responseStr := "";
     totalResponse := "";
     loop_toolCalls := [];
     emitted := [] |}.

Definition fence_open_marker : string := "``".

Definition capturing_notice : string :=
  "Capturing mermaid diagram from the model...".

(** The Groq adaptation at the head of the loop body: a chunk with a
    [choices] property whose delta content is truthy becomes a text part;
    any other part is left as it is. *)
Definition adapt (part : ResponsePart) : ResponsePart :=
  match part with
  | GroqChunk (Some partContent) =>
      if String.eqb partContent "" then part else TextPart partContent
  | _ => part
  end.

(** One pass through the loop body. *)
Definition loop_body (st : StreamLoop) (part0 : ResponsePart) : StreamLoop :=
  match adapt part0 with
  | TextPart value =>
      let st1 :=
        if negb (isMermaidDiagramStreamingIn st)
           && Str.includes value fence_open_marker
        then {| isMermaidDiagramStreamingIn := true;
                mermaidDiagram := mermaidDiagram st;
                responseStr := responseStr st;
                totalResponse := totalResponse st +:+ value;
                loop_toolCalls := loop_toolCalls st;
                emitted := emitted st ++ [progress capturing_notice] |}
        else st in
      if isMermaidDiagramStreamingIn st1
      then {| isMermaidDiagramStreamingIn := true;
              mermaidDiagram := mermaidDiagram st1 +:+ value;
              responseStr := responseStr st1;
              totalResponse := totalResponse st1;
              loop_toolCalls := loop_toolCalls st1;
              emitted := emitted st1 |}
      else {| isMermaidDiagramStreamingIn := false;
              mermaidDiagram := mermaidDiagram st1;
              responseStr := responseStr st1 +:+ value;
              totalResponse := totalResponse st1;
              loop_toolCalls := loop_toolCalls st1;
              emitted := emitted st1 ++ [markdown value] |}
  | ToolCallPart call =>
      {| isMermaidDiagramStreamingIn := isMermaidDiagramStreamingIn st;
         mermaidDiagram := mermaidDiagram st;
         responseStr := responseStr st;
         totalResponse := totalResponse st;
         loop_toolCalls := loop_toolCalls st ++ [call];
         emitted := emitted st |}
  | _ => st
  end.

(** The whole loop, from the freshly initialised locals. *)
Definition stream_loop (parts : list ResponsePart) : StreamLoop :=
  fold_left loop_body parts loop_init.

(** The closure variables of [chatRequestHandler], the chat stream, the
    output channel and the static [currentPanel]. *)
Record Turn := mkTurn {
  messages : list LanguageModelChatMessage;
  retries : nat;
  accumulatedToolResults : gmap string LanguageModelToolResult;
  toolCallRounds : list ToolCallRound;
  stream : list StreamEvent;
  outputChannel : list string;
  currentPanel : option DiagramEditorPanel;
  (** how many responses were requested from a model so far *)
  lm_requests : nat;
  (** how many times a tool was invoked so far *)
  tool_invocations : nat
}.

(** Modelled from the spec: the tool-call part of
    [renderPrompt(MermaidPrompt, ...)], whose source
    (src/chat/mermaidPrompt.tsx) is not among the files.  For every tool
    call of the round history, in order, the result is taken from the
    accumulated map when the call identifier is present there ("results
    must not be re-requested from the invoker once present in the map") and
    from the invoker otherwise; each result is reported as a
    [ToolResultMetadata].  [n] counts the invocations. *)
Fixpoint resolveToolCalls (E : Env)
    (toolCallResults : gmap string LanguageModelToolResult) (n : nat)
    (calls : list LanguageModelToolCallPart) : list ToolResultMetadata * nat :=
  match calls with
  | [] => ([], n)
  | call :: rest =>
      match toolCallResults !! callId call with
      | Some r =>
          let '(metas, n') := resolveToolCalls E toolCallResults n rest in
          ((callId call, r) :: metas, n')
      | None =>
          let r := invokeTool E n call in
          let '(metas, n') := resolveToolCalls E toolCallResults (S n) rest in
          ((callId call, r) :: metas, n')
      end
  end.

(** Modelled from the spec: [renderPrompt(MermaidPrompt, {toolCallRounds,
    toolCallResults, ...})]: the rendered messages, the tool-result
    metadata and the new invocation count. *)
Definition renderPrompt (E : Env) (rounds : list ToolCallRound)
    (toolCallResults : gmap string LanguageModelToolResult) (n : nat)
  : list LanguageModelChatMessage * list ToolResultMetadata * nat :=
  let '(metas, n') :=
    resolveToolCalls E toolCallResults n (concat (map toolCalls rounds)) in
  (promptMessages E rounds metas, metas, n').

(** [toolResultMetadata.forEach(meta =>
       accumulatedToolResults[meta.toolCallId] = meta.result)]. *)
Definition foldToolResults (metas : list ToolResultMetadata)
    (acc : gmap string LanguageModelToolResult)
  : gmap string LanguageModelToolResult :=
  fold_left (fun m meta => <[fst meta := snd meta]> m) metas acc.

Definition keyword_instruction : string :=
  "Please add the `mermaid` keyword to the start of your diagram. Like this  ```mermaid ".

Definition nesting_instruction : string :=
  "Remember when creating the UML diagram in Mermaid, classes are represented as flat structures,"
  +:+ " and Mermaid does not support nested class definitions. Instead, each class must be defined separately, and relationships between them must be explicitly stated."
  +:+ "Use association to connect the main class to the nested class, using cardinality to denote relationships (e.g., one-to-many)."
  +:+ " " +:+ LF +:+ " example of correct syntax: " +:+ LF
  +:+ LF +:+ "                classDiagram"
  +:+ LF +:+ "                    class House {"
  +:+ LF +:+ "                        string address"
  +:+ LF +:+ "                        int rooms"
  +:+ LF +:+ "                        Kitchen kitchen"
  +:+ LF +:+ "                    }"
  +:+ LF +:+ "                                    "
  +:+ LF +:+ "                    class Kitchen {"
  +:+ LF +:+ "                        string appliances"
  +:+ LF +:+ "                        int size"
  +:+ LF +:+ "                    }"
  +:+ LF +:+ "                                    "
  +:+ LF +:+ "                    House " +:+ DQ +:+ "1" +:+ DQ +:+ " --> " +:+ DQ +:+ "1" +:+ DQ +:+ " Kitchen : kitchen"
  +:+ LF +:+ "                ".

(** [addNestingContext(messages)]. *)
Definition addNestingContext (msgs : list LanguageModelChatMessage)
  : list LanguageModelChatMessage :=
  msgs ++ [UserMessage nesting_instruction].

Definition fix_request (error raw : string) : string :=
  "Please fix this mermaid parse error to make the diagram render correctly: "
  +:+ error +:+ ". The produced diagram with the parse error is:" +:+ LF +:+ raw.

Definition no_diagram_notice : string :=
  "No diagram found in editor view. Please create a diagram first to iterate on it.".

Definition failed_notice : string :=
  "Failed to display your requested mermaid diagram. Check output log for details."
  +:+ LF +:+ LF.

Definition trailing_notice : string := "running with function go ".

(** How one activation of [runWithFunctions] ends. *)
Inductive Outcome :=
| Recurse (s : Turn)   (** [return runWithFunctions()] *)
| Return (s : Turn)    (** the promise resolves *)
| Throw (error : string) (s : Turn).  (** the promise rejects *)

Definition turn_of (o : Outcome) : Turn :=
  match o with
  | Recurse s | Return s | Throw _ s => s
  end.

(** [convertMessagesToGroq]: the user messages only ([message.role === 1]). *)
Definition convertMessagesToGroq (msgs : list LanguageModelChatMessage)
  : list GroqMessage :=
  map (fun m => {| groq_role := "user"; groq_content := msg_content m |})
      (List.filter
         (fun m => match msg_role m with User => true | Assistant => false end)
         msgs).

(** [callWithGroq(messages, stream)]: the drained chunk stream and the
    chat stream after the call, or the error it throws. *)
Definition callWithGroq (E : Env) (n : nat)
    (msgs : list LanguageModelChatMessage) (out : list StreamEvent)
  : string + (list ResponsePart * list StreamEvent) :=
  match GROQ_API_KEY E with
  | Some (String c k) =>
      inr (groq_create E n (convertMessagesToGroq msgs),
           out ++ [markdown ("using GROQ for request... " +:+ LF)])
  | _ => inl "GROQ_API_KEY environment variable is not set"
  end.

(** [request.command === 'iterate']. *)
Definition is_iterate (E : Env) : bool :=
  match request_command E with
  | Some c => String.eqb c "iterate"
  | None => false
  end.

(** [chatRequestHandler] sets [groqEnabled] exactly for the iterate
    command. *)
Definition groqEnabled (E : Env) : bool := is_iterate E.

(** The branch taken when the response carried tool calls
    (chatParticipant.ts, lines 130-153). *)
Definition tool_round (E : Env) (s : Turn) (l : StreamLoop) : Turn :=
  let rounds :=
    toolCallRounds s
    ++ [{| response := responseStr l; toolCalls := loop_toolCalls l |}] in
  let '(msgs, metas, n) :=
    renderPrompt E rounds (accumulatedToolResults s) (tool_invocations s) in
  {| messages := msgs;
     retries := retries s;
     accumulatedToolResults := foldToolResults metas (accumulatedToolResults s);
     toolCallRounds := rounds;
     stream := stream s ++ emitted l;
     outputChannel := outputChannel s;
     currentPanel := currentPanel s;
     lm_requests := lm_requests s;
     tool_invocations := n |}.

(** The parse-error handling (chatParticipant.ts, lines 176-198), entered
    with the state [s] the validation left, the raw diagram text and the
    error of the failed validation. *)
Definition handle_parse_error (s : Turn) (raw error : string) : Outcome :=
  let retries1 := S (retries s) in
  let log1 :=
    outputChannel s ++ ["Not successful (on retry=" +:+ pretty retries1 +:+ ")"] in
  let messages1 :=
    if (retries1 =? 1)%nat then
      if negb (Str.includes raw "mermaid")
      then messages s ++ [UserMessage keyword_instruction]
      else addNestingContext (messages s)
    else messages s in
  if (retries1 <? 4)%nat then
    Recurse
      {| messages := messages1 ++ [UserMessage (fix_request error raw)];
         retries := retries1;
         accumulatedToolResults := accumulatedToolResults s;
         toolCallRounds := toolCallRounds s;
         stream := stream s ++ [progress "Attempting to fix validation errors"];
         outputChannel := log1;
         currentPanel := currentPanel s;
         lm_requests := lm_requests s;
         tool_invocations := tool_invocations s |}
  else
    Return
      {| messages := messages1;
         retries := retries1;
         accumulatedToolResults := accumulatedToolResults s;
         toolCallRounds := toolCallRounds s;
         stream := stream s
                   ++ [markdown failed_notice; markdown raw; markdown trailing_notice];
         outputChannel :=
           log1 ++ (if String.eqb error "" then [] else [error]);
         currentPanel := currentPanel s;
         lm_requests := lm_requests s;
         tool_invocations := tool_invocations s |}.

(** The validation step (chatParticipant.ts, lines 156-162): the
    captured text is logged, a [Diagram] is made of it and handed to
    [createOrShow]; the result comes with the state the call leaves. *)
Definition validated (E : Env) (pollFuel : nat) (s : Turn) (l : StreamLoop)
  : option (ValidateResult * Turn) :=
  let raw := mermaidDiagram l in
  let d := newDiagram raw in
  let log0 := outputChannel s ++ [raw] ++ ["~~"; content d; "~~"] in
  match createOrShow E pollFuel (lm_requests s) (currentPanel s) log0 d with
  | None => None
  | Some (result, (panel, log1)) =>
      Some (result,
            {| messages := messages s;
               retries := retries s;
               accumulatedToolResults := accumulatedToolResults s;
               toolCallRounds := toolCallRounds s;
               stream := stream s ++ emitted l
                         ++ [progress "Validating mermaid diagram"];
               outputChannel := log1;
               currentPanel := Some panel;
               lm_requests := lm_requests s;
               tool_invocations := tool_invocations s |})
  end.

(** The state in which an accepted diagram leaves the turn. *)
Definition accepted_exit (E : Env) (s : Turn) (d : Diagram) : Turn :=
  {| messages := messages s;
     retries := retries s;
     accumulatedToolResults := accumulatedToolResults s;
     toolCallRounds := toolCallRounds s;
     stream := stream s ++ [button (COMMAND_OPEN_MARKDOWN_FILE E) (content d)];
     outputChannel := outputChannel s;
     currentPanel := currentPanel s;
     lm_requests := lm_requests s;
     tool_invocations := tool_invocations s |}.

(** The validation of the captured text and what follows it
    (chatParticipant.ts, lines 156-198), for a response without tool
    calls. *)
Definition validate_round (E : Env) (pollFuel : nat) (s : Turn) (l : StreamLoop)
  : option Outcome :=
  match validated E pollFuel s l with
  | None => None
  | Some (Success, s1) =>
      Some (Return (accepted_exit E s1 (newDiagram (mermaidDiagram l))))
  | Some (Failure error, s1) =>
      Some (handle_parse_error s1 (mermaidDiagram l) error)
  end.

(** What follows the response: the stream loop, then the tool-call branch
    or the validation. *)
Definition after_response (E : Env) (pollFuel : nat) (s : Turn)
    (parts : list ResponsePart) : option Outcome :=
  let l := stream_loop parts in
  match loop_toolCalls l with
  | _ :: _ => Some (Recurse (tool_round E s l))
  | [] => validate_round E pollFuel s l
  end.

(** The state once a response was requested: what [callWithGroq] wrote to
    the chat stream, and one more request counted. *)
Definition requested (s : Turn) (out : list StreamEvent) : Turn :=
  {| messages := messages s;
     retries := retries s;
     accumulatedToolResults := accumulatedToolResults s;
     toolCallRounds := toolCallRounds s;
     stream := out;
     outputChannel := outputChannel s;
     currentPanel := currentPanel s;
     lm_requests := S (lm_requests s);
     tool_invocations := tool_invocations s |}.

(** The early exit of the iterate command. *)
Definition no_diagram_exit (s : Turn) : Turn :=
  {| messages := messages s;
     retries := retries s;
     accumulatedToolResults := accumulatedToolResults s;
     toolCallRounds := toolCallRounds s;
     stream := stream s ++ [markdown no_diagram_notice];
     outputChannel := outputChannel s;
     currentPanel := currentPanel s;
     lm_requests := lm_requests s;
     tool_invocations := tool_invocations s |}.

(** The [response] of an activation: from Groq when [groqEnabled], from
    the selected model otherwise; with the chat stream after the call. *)
Definition request_response (E : Env) (s : Turn)
  : string + (list ResponsePart * list StreamEvent) :=
  if groqEnabled E
  then callWithGroq E (lm_requests s) (messages s) (stream s)
  else inr (sendRequest E (lm_requests s) (messages s), stream s).

(** The check that opens [runWithFunctions]: the command is iterate and
    [DiagramEditorPanel.currentPanel?.diagram] is undefined. *)
Definition nothing_to_iterate (E : Env) (s : Turn) : bool :=
  is_iterate E && match currentPanel s with Some _ => false | None => true end.

(** One activation of [runWithFunctions], up to its [return].  [None]:
    the validation promise never resolves within [pollFuel] firings. *)
Definition activation (E : Env) (pollFuel : nat) (s : Turn) : option Outcome :=
  if nothing_to_iterate E s then Some (Return (no_diagram_exit s))
  else match request_response E s with
       | inl error => Some (Throw error s)
       | inr (parts, out) => after_response E pollFuel (requested s out) parts
       end.

(** [runWithFunctions()]: at most [fuel] activations. *)
Fixpoint runWithFunctions (E : Env) (pollFuel fuel : nat) (s : Turn)
  : option Outcome :=
  match fuel with
  | O => None
  | S fuel' =>
      match activation E pollFuel s with
      | Some (Recurse s') => runWithFunctions E pollFuel fuel' s'
      | other => other
      end
  end.

(** The states in which [runWithFunctions] is re-entered. *)
Inductive Reentered (E : Env) (pollFuel : nat) (s0 : Turn) : Turn -> Prop :=
| reentered_first : Reentered E pollFuel s0 s0
| reentered_next s s' :
    Reentered E pollFuel s0 s ->
    activation E pollFuel s = Some (Recurse s') ->
    Reentered E pollFuel s0 s'.

(** The anchors given to [stream.reference]. *)
Definition reference_events (refs : list Anchor) : list StreamEvent :=
  flat_map (fun a => match a with
                     | UriAnchor u => [reference u]
                     | LocationAnchor l => [reference l]
                     | VariableAnchor _ => []
                     end) refs.

(** The state in which [chatRequestHandler] first calls
    [runWithFunctions]: the first prompt is rendered from an empty round
    history, so no tool is invoked for it. *)
Definition initial_turn (E : Env) (panel : option DiagramEditorPanel)
    (log : list string) : Turn :=
  let '(msgs, _, n) := renderPrompt E [] ∅ 0 in
  {| messages := msgs;
     retries := 0;
     accumulatedToolResults := ∅;
     toolCallRounds := [];
     stream := reference_events (promptReferences E);
     outputChannel :=
       log ++ ["Available tools: " +:+ String.concat ", " (tool_names E)];
     currentPanel := panel;
     lm_requests := 0;
     tool_invocations := n |}.

(** [chatRequestHandler]. *)
Definition chatRequestHandler (E : Env) (pollFuel fuel : nat)
    (panel : option DiagramEditorPanel) (log : list string) : option Outcome :=
  runWithFunctions E pollFuel fuel (initial_turn E panel log).

(** ** Vocabulary of the statements *)

(** The outcome [_validate] delivers for a parse result. *)
Definition outcome_of (pd : ParseDetails) : ValidateResult :=
  match pd with
  | ParseSuccess _ => Success
  | ParseFailure error _ _ => Failure error
  end.

(** The diagram [_validate(diagram?)] validates. *)
Definition candidate (this : DiagramEditorPanel) (d : option Diagram) : Diagram :=
  match d with
  | Some d' => d'
  | None => _diagram this
  end.

(** The text of a part that the loop treats as a text chunk. *)
Definition text_value (part : ResponsePart) : option string :=
  match adapt part with
  | TextPart value => Some value
  | _ => None
  end.

Definition text_values (parts : list ResponsePart) : list string :=
  omap text_value parts.

(** What reached the prose sink: the arguments of [stream.markdown]. *)
Definition prose_sink (events : list StreamEvent) : list string :=
  omap (fun e => match e with markdown value => Some value | _ => None end) events.

(** The chunks appended one after the other. *)
Definition appended (chunks : list string) : string :=
  foldr String.append "" chunks.

(** No white space at the head of a string. *)
Definition head_trimmed (s : string) : bool :=
  match s with
  | "" => true
  | String c _ => negb (Str.isWhiteSpace c)
  end.

(** A validation fails in the activation entered in state [s]: a
    response is requested, it carries no tool call, and the validation of
    the text [raw] captured from it fails with [error], leaving the state
    [s1]. *)
Definition FailedValidation (E : Env) (pollFuel : nat) (s : Turn)
    (raw error : string) (s1 : Turn) : Prop :=
  nothing_to_iterate E s = false
  /\ exists parts out,
       request_response E s = inr (parts, out)
       /\ loop_toolCalls (stream_loop parts) = []
       /\ raw = mermaidDiagram (stream_loop parts)
       /\ validated E pollFuel (requested s out) (stream_loop parts)
          = Some (Failure error, s1).

(** Modelled from the spec: "the diagram text lacks the expected
    diagram-type keyword immediately after the opening fence", read as: the
    text that follows the first fence of the raw text starts with the
    keyword. *)
Definition keyword_after_opening_fence (raw : string) : bool :=
  let i := Str.indexOf raw fence in
  (0 <=? i)%Z && Str.startsWith (Str.drop (Z.to_nat i + 3) raw) "mermaid".

(** ** Sample collaborators, for the concrete runs *)

Module Sample.

(** The k-th response: a line of prose, then a fenced diagram [dk]. *)
Definition fenced_response (k : nat) : list ResponsePart :=
  [TextPart "Here: ";
   TextPart ("```mermaid" +:+ LF +:+ "d" +:+ pretty k +:+ LF +:+ "```")].

(** A webview whose parser rejects every diagram at once. *)
Definition rejecting (doc : Html) (tick : nat) : list ParseDetails :=
  match doc, tick with
  | HtmlToValidateMermaid _ nonce, 0 =>
      [ParseFailure "unexpected token" nonce None]
  | _, _ => []
  end.

(** A webview that first posts a result for another nonce and answers
    the request two firings later, twice. *)
Definition slow (doc : Html) (tick : nat) : list ParseDetails :=
  match doc, tick with
  | HtmlToValidateMermaid _ nonce, 0 => [ParseSuccess "stale"]
  | HtmlToValidateMermaid _ nonce, 2 =>
      [ParseFailure "unexpected token" nonce None; ParseSuccess nonce]
  | _, _ => []
  end.

Definition env (cmd : option string)
    (lm : nat -> list LanguageModelChatMessage -> list ResponsePart)
    (webview : Html -> nat -> list ParseDetails) : Env :=
  {| request_command := cmd;
     tool_names := ["mermAId_get_symbol_definition"];
     promptMessages := fun rounds metas =>
       UserMessage "draw the classes"
       :: map (fun meta => UserMessage (snd meta)) metas;
     promptReferences := [UriAnchor "file:///a.ts"; VariableAnchor "selection"];
     sendRequest := lm;
     GROQ_API_KEY := None;
     groq_create := fun _ _ => [];
     invokeTool := fun n call => name call +:+ "#" +:+ pretty n;
     getTime := fun n => (1700000000000 + N.of_nat n)%N;
     webview_posts := webview;
     JSON_stringify := fun pd => pd_nonce pd;
     COMMAND_OPEN_MARKDOWN_FILE := "mermAId.openMarkdownFile" |}.

Definition always_failing : Env :=
  env None (fun k _ => fenced_response k) rejecting.

Definition slow_webview : Env :=
  env None (fun k _ => fenced_response k) slow.


Definition call_1 : LanguageModelToolCallPart :=
  {| callId := "call_1"; name := "mermAId_get_symbol_definition";
     input := "Diagram" |}.

Definition call_2 : LanguageModelToolCallPart :=
  {| callId := "call_2"; name := "mermAId_get_symbol_definition";
     input := "Panel" |}.

(** A first response that asks for two tools around a fenced diagram. *)
Definition tool_response : list ResponsePart :=
  [TextPart "Let me look. "; ToolCallPart call_1;
   TextPart ("```mermaid" +:+ LF +:+ "graph TD" +:+ LF +:+ "```");
   ToolCallPart call_2].

Definition calling_tools : Env :=
  env None
      (fun k _ => match k with 0 => tool_response | _ => fenced_response k end)
      rejecting.

(** A webview whose parser accepts every diagram at the second firing. *)
Definition accepting (doc : Html) (tick : nat) : list ParseDetails :=
  match doc, tick with
  | HtmlToValidateMermaid _ nonce, 1 => [ParseSuccess nonce]
  | _, _ => []
  end.

(** A webview whose parser rejects the first diagram and accepts the
    later ones. *)
Definition rejecting_once (doc : Html) (tick : nat) : list ParseDetails :=
  match doc with
  | HtmlToValidateMermaid d nonce =>
      if String.eqb (content d) "d0" then rejecting doc tick else accepting doc tick
  | HtmlForWebview _ => []
  end.

(** The response of the specification's first scenario. *)
Definition scenario_response : list ResponsePart :=
  [TextPart "Here is "; TextPart ("a result:" +:+ LF);
   TextPart ("```mermaid" +:+ LF +:+ "A-->B" +:+ LF +:+ "```")].

Definition accepting_scenario : Env :=
  env None (fun _ _ => scenario_response) accepting.

Definition failing_once : Env :=
  env None (fun k _ => fenced_response k) rejecting_once.

(** A fenced diagram without the language tag, with the word mermaid in
    its body. *)
Definition untagged : string :=
  "```" +:+ LF +:+ "graph TD" +:+ LF +:+ "  A[mermaid] --> B" +:+ LF +:+ "```".

Definition untagged_diagram : Env :=
  env None (fun _ _ => [TextPart untagged]) rejecting.

Definition accepted : Diagram := {| content := "graph TD" |}.

(** A panel showing an accepted diagram. *)
Definition panel : DiagramEditorPanel :=
  {| _diagram := accepted;
     parseDetails := [ParseSuccess "1699999999999"];
     webview_html := [HtmlToValidateMermaid accepted "1699999999999";
                      HtmlForWebview accepted] |}.

End Sample.

(** ** Further vocabulary *)

(** The tool call a part carries. *)
Definition tool_call_of (part : ResponsePart) : option LanguageModelToolCallPart :=
  match part with
  | ToolCallPart call => Some call
  | _ => None
  end.

(** The part as the loop body sees it, when it sees it at all: a text
    part, a tool-call part, or nothing. *)
Definition essential (part : ResponsePart) : option ResponsePart :=
  match adapt part with
  | TextPart value => Some (TextPart value)
  | ToolCallPart call => Some (ToolCallPart call)
  | _ => None
  end.

(** The progress notices about the capture among the stream events. *)
Definition capturing_notices (events : list StreamEvent) : list StreamEvent :=
  List.filter
    (fun e => match e with
              | progress value => String.eqb value capturing_notice
              | _ => false
              end)
    events.

(** Some text chunk of the response contains the fence-open marker. *)
Definition has_marker (parts : list ResponsePart) : bool :=
  existsb (fun v => Str.includes v fence_open_marker) (text_values parts).

(** A string of white space only. *)
Fixpoint whitespace_only (s : string) : bool :=
  match s with
  | "" => true
  | String c s' => Str.isWhiteSpace c && whitespace_only s'
  end.

(** The turn with other messages. *)
Definition with_messages (s : Turn) (msgs : list LanguageModelChatMessage) : Turn :=
  {| messages := msgs;
     retries := retries s;
     accumulatedToolResults := accumulatedToolResults s;
     toolCallRounds := toolCallRounds s;
     stream := stream s;
     outputChannel := outputChannel s;
     currentPanel := currentPanel s;
     lm_requests := lm_requests s;
     tool_invocations := tool_invocations s |}.

(** The last code unit of a string. *)
Fixpoint last_char (s : string) : option ascii :=
  match s with
  | "" => None
  | String c "" => Some c
  | String _ s' => last_char s'
  end.

(** ** The navigate handler's path test (src/diagramEditorPanel.ts) *)

(** [[a-zA-Z]]. *)
Definition is_letter (c : ascii) : bool :=
  let n := nat_of_ascii c in
  ((65 <=? n) && (n <=? 90))%nat || ((97 <=? n) && (n <=? 122))%nat.

(** [[\/\\]]: a slash or a backslash. *)
Definition is_separator (c : ascii) : bool :=
  (nat_of_ascii c =? 47)%nat || (nat_of_ascii c =? 92)%nat.

(** [this.absolutePathRegex.test(s)] for the expression
    [^([a-zA-Z]:)?[\/\\]]: the optional group is tried first, and without
    it when the match fails with it. *)
Definition absolutePathRegex_test (s : string) : bool :=
  match s with
  | "" => false
  | String c rest =>
      (is_letter c
       && match rest with
          | String colon (String d _) =>
              (nat_of_ascii colon =? 58)%nat && is_separator d
          | _ => false
          end)
      || is_separator c
  end.

(** The file path the navigate case opens, from the decoded path:
    a path that is not absolute is joined to the first workspace folder,
    when there is one.  [joinPath] is [vscode.Uri.joinPath(...).path]. *)
Definition navigate_filepath (joinPath : string -> string -> string)
    (workspaceFolders : option (list string)) (decoded : string) : string :=
  if negb (absolutePathRegex_test decoded) then
    match workspaceFolders with
    | Some (workspace :: _) => joinPath workspace decoded
    | _ => decoded
    end
  else decoded.

(** ** The outline view's loop (src/outlineView.ts) *)

Module Outline.

(** A tool-call part of the response, with the fields this file reads. *)
Record ToolCall := mkCall {
  name : string;
  toolCallId : string;
  parameters : string
}.

Inductive Part :=
| Text (value : string)
| Call (call : ToolCall)
| Other.

(** The chat messages this file builds: with a text, or with an empty
    text and a [content2] of tool-call parts or of one tool-result part. *)
Inductive Message :=
| Assistant (text : string)
| User (text : string)
| AssistantCalls (calls : list ToolCall)
| UserResult (toolCallId : string) (text : string).

(** The lines given to [logMessage], by the place that writes them. *)
Inductive LogLine :=
| NoModel
| NoPreferredModel
| AvailableTools (names : list string)
| UsedTool (id : option string)
| CandidateReceived (raw : string)
| CandidateText (raw : string)
| CandidateFailed (retries : nat) (message : string)
| Retrying.

(** The result of [generateWithValidation()]. *)
Record Validation := mkValidation {
  success : bool;
  message : string
}.

(** The collaborators.  [generateWithValidation] is a method of the
    [Diagram] class this file imports, whose source is not among the
    files; it is given the text the diagram was made of. *)
Record Env := mkEnv {
  (** [activeTextEditor?.document]: its path and its text *)
  document : option (string * string);
  (** the family and vendor of each of [selectChatModels()] *)
  models : list (string * string);
  (** the ids of [vscode.lm.tools] *)
  tools : list string;
  (** [model.sendRequest], drained *)
  sendRequest : nat -> list Message -> list Part;
  (** the message of the error [JSON.parse] throws, if it throws *)
  JSON_parse_error : string -> option string;
  (** [vscode.lm.invokeTool]: the error it rejects with, or the
      ['text/plain'] of its result *)
  invokeTool : nat -> string -> string -> string + string;
  generateWithValidation : nat -> string -> Validation
}.

(** The closure variables of [promptLLMForOutlineDiagram], the output
    channel, and the counts of the calls made. *)
Record State := mkState {
  messages : list Message;
  retries : nat;
  log : list LogLine;
  requests : nat;
  invocations : nat;
  validations : nat
}.

(** How an activation of [runWithTools] ends; it returns the diagram it
    made, given here by the text it was made of. *)
Inductive Outcome :=
| Recurse (s : State)
| Return (diagram : option string) (s : State)
| Throw (error : string) (s : State).

Definition state_of (o : Outcome) : State :=
  match o with
  | Recurse s | Return _ s | Throw _ s => s
  end.

Definition llmInstructions : string :=
  LF +:+ "You are helpful chat assistant that creates diagrams for the user using the mermaid syntax."
  +:+ LF +:+ "The output diagram should represent an outline of the document."
  +:+ LF +:+ "You must provide a valid mermaid diagram prefixed with a line containing  ```mermaid"
  +:+ LF +:+ "and suffixed with a line containing ```."
  +:+ LF +:+ "Only ever include the ``` delimiter in the two places mentioned above. "
  +:+ LF +:+ "Do not include any other text before or after the diagram, only include the diagram."
  +:+ LF.

Definition summary (ids : list string) : string :=
  "Above is the result of calling the functions " +:+ String.concat ", " ids
  +:+ ". Use this as you iterate on the mermaid diagram.".

Definition fix_request (message raw : string) : string :=
  "Please fix this error to make the diagram render correctly: " +:+ message
  +:+ ". The diagram is below:" +:+ LF +:+ raw.

Definition with_log (s : State) (lines : list LogLine) : State :=
  {| messages := messages s; retries := retries s; log := log s ++ lines;
     requests := requests s; invocations := invocations s;
     validations := validations s |}.

(** The body of the loop for a tool-call part, and the re-entry that
    follows it in the same pass: the tool is looked up and its parameters
    parsed, the tool is invoked, the call and its result are appended to
    the messages, and [runWithTools] is entered again. *)
Definition on_tool_call (E : Env) (s : State) (part : ToolCall) : Outcome :=
  let known := existsb (String.eqb (name part)) (tools E) in
  let s1 := with_log s [UsedTool (if known then Some (name part) else None)] in
  if negb known then Throw ("Tool " +:+ name part +:+ " invalid") s1
  else
    match JSON_parse_error E (parameters part) with
    | Some err =>
        Throw ("Got invalid tool use parameters: " +:+ DQ +:+ parameters part
               +:+ DQ +:+ ". (" +:+ err +:+ ")") s1
    | None =>
        let s2 :=
          {| messages := messages s1 ++ [AssistantCalls [part]];
             retries := retries s1; log := log s1;
             requests := requests s1; invocations := S (invocations s1);
             validations := validations s1 |} in
        match invokeTool E (invocations s1) (name part) (parameters part) with
        | inl err => Throw err s2
        | inr text =>
            Recurse
              {| messages := messages s2
                             ++ [UserResult (toolCallId part) text;
                                 User (summary [name part])];
                 retries := retries s2; log := log s2;
                 requests := requests s2; invocations := invocations s2;
                 validations := validations s2 |}
        end
    end.

(** What follows the loop: the candidate is validated; a failure is
    retried while [retries++ < 2]; otherwise the diagram is returned. *)
Definition after_stream (E : Env) (s : State) (mermaidDiagram : string) : Outcome :=
  let s1 := with_log s [CandidateReceived mermaidDiagram; CandidateText mermaidDiagram] in
  let result := generateWithValidation E (validations s1) mermaidDiagram in
  let s2 :=
    {| messages := messages s1; retries := retries s1; log := log s1;
       requests := requests s1; invocations := invocations s1;
       validations := S (validations s1) |} in
  if success result then Return (Some mermaidDiagram) s2
  else
    let s3 := with_log s2 [CandidateFailed (retries s2) (message result)] in
    if (retries s3 <? 2)%nat then
      Recurse
        {| messages := messages s3 ++ [User (fix_request (message result) mermaidDiagram)];
           retries := S (retries s3); log := log s3 ++ [Retrying];
           requests := requests s3; invocations := invocations s3;
           validations := validations s3 |}
    else
      Return (Some mermaidDiagram)
        {| messages := messages s3; retries := S (retries s3); log := log s3;
           requests := requests s3; invocations := invocations s3;
           validations := validations s3 |}.

(** The [for await] loop over the response, from the part reached with
    the text gathered so far. *)
Fixpoint stream_loop (E : Env) (s : State) (mermaidDiagram : string)
    (parts : list Part) : Outcome :=
  match parts with
  | [] => after_stream E s mermaidDiagram
  | Text value :: rest => stream_loop E s (mermaidDiagram +:+ value) rest
  | Call part :: _ => on_tool_call E s part
  | Other :: rest => stream_loop E s mermaidDiagram rest
  end.

(** One activation of [runWithTools]. *)
Definition activation (E : Env) (s : State) : Outcome :=
  stream_loop E
    {| messages := messages s; retries := retries s; log := log s;
       requests := S (requests s); invocations := invocations s;
       validations := validations s |}
    "" (sendRequest E (requests s) (messages s)).

(** [runWithTools()]: at most [fuel] activations. *)
Fixpoint runWithTools (E : Env) (fuel : nat) (s : State) : option Outcome :=
  match fuel with
  | O => None
  | S fuel' =>
      match activation E s with
      | Recurse s' => runWithTools E fuel' s'
      | other => Some other
      end
  end.

Definition empty_state (lines : list LogLine) : State :=
  {| messages := []; retries := 0; log := lines;
     requests := 0; invocations := 0; validations := 0 |}.

(** [promptLLMForOutlineDiagram]. *)
Definition promptLLMForOutlineDiagram (E : Env) (fuel : nat) : option Outcome :=
  match document E with
  | None => Some (Return None (empty_state []))
  | Some (fsPath, text) =>
      match models E with
      | [] => Some (Return None (empty_state [NoModel]))
      | _ :: _ =>
          if existsb (fun m => String.eqb (fst m) "gpt-4o" && String.eqb (snd m) "copilot")
                     (models E)
          then
            runWithTools E fuel
              {| messages :=
                   [Assistant llmInstructions;
                    User ("The file the user currently has open is: " +:+ fsPath
                          +:+ " with contents: " +:+ text)];
                 retries := 0; log := [AvailableTools (tools E)];
                 requests := 0; invocations := 0; validations := 0 |}
          else Some (Return None (empty_state [NoPreferredModel]))
      end
  end.

(** The text parts of a response, appended. *)
Definition text_of (parts : list Part) : string :=
  foldr (fun p acc => match p with Text v => v +:+ acc | _ => acc end) "" parts.

Definition is_call (p : Part) : bool :=
  match p with Call _ => true | _ => false end.

(** The states in which [runWithTools] is re-entered. *)
Inductive Reentered (E : Env) (s0 : State) : State -> Prop :=
| reentered_first : Reentered E s0 s0
| reentered_next s s' :
    Reentered E s0 s -> activation E s = Recurse s' -> Reentered E s0 s'.

End Outline.

(** ** Sample collaborators of the outline view *)

Module OutlineSample.

Definition lookup : Outline.ToolCall :=
  {| Outline.name := "mermAId_get_symbol_definition";
     Outline.toolCallId := "call_7";
     Outline.parameters := "{}" |}.

Definition unknown : Outline.ToolCall :=
  {| Outline.name := "no_such_tool";
     Outline.toolCallId := "call_8";
     Outline.parameters := "{}" |}.

(** A model that answers with a fenced diagram [dk], a validation that
    rejects every diagram. *)
Definition never_valid : Outline.Env :=
  {| Outline.document := Some ("/w/a.ts", "class A {}");
     Outline.models := [("gpt-4o", "copilot")];
     Outline.tools := ["mermAId_get_symbol_definition"];
     Outline.sendRequest := fun k _ =>
       [Outline.Text "```mermaid"; Outline.Other; Outline.Text ("d" +:+ pretty k)];
     Outline.JSON_parse_error := fun _ => None;
     Outline.invokeTool := fun _ _ _ => inr "class A";
     Outline.generateWithValidation := fun _ _ =>
       {| Outline.success := false; Outline.message := "parse error" |} |}.

Definition start : Outline.State :=
  {| Outline.messages := [Outline.User "outline"]; Outline.retries := 0;
     Outline.log := []; Outline.requests := 0; Outline.invocations := 0;
     Outline.validations := 0 |}.

End OutlineSample.

(** * Properties *)

(** ** Strings *)

Section StrFacts.

Import Str.

Lemma length_take n s :
  String.length (take n s) = Nat.min n (String.length s).
Proof.
  revert s; induction n as [|n IH]; intros [|c s]; simpl; auto.
Qed.

Lemma length_drop n s :
  String.length (drop n s) = String.length s - n.
Proof.
  revert s; induction n as [|n IH]; intros [|c s]; simpl; auto.
Qed.

Lemma startsWith_app s p :
  startsWith s p = true <-> exists post, s = p +:+ post.
Proof.
  revert s; induction p as [|a p IH]; intros s; simpl.
  - split; eauto.
  - destruct s as [|b s].
    + split; [discriminate | intros [post H]; discriminate].
    + rewrite andb_true_iff, IH. split.
      * intros [Hab [post ->]]. apply Ascii.eqb_eq in Hab as ->. eauto.
      * intros [post H]. injection H as -> ->.
        split; [apply Ascii.eqb_refl | eauto].
Qed.

Lemma startsWith_length s p :
  startsWith s p = true -> String.length p <= String.length s.
Proof.
  revert s; induction p as [|a p IH]; intros [|b s]; simpl; try lia.
  intros [_ H]%andb_true_iff. apply IH in H. lia.
Qed.

Lemma includes_unfold s t :
  includes s t
  = startsWith s t || match s with "" => false | String _ s' => includes s' t end.
Proof. destruct s; reflexivity. Qed.

(** [includes] decides the specification's "contains". *)
Lemma includes_Contains s t : includes s t = true <-> Contains s t.
Proof.
  split.
  - induction s as [|c s IH]; rewrite includes_unfold;
      intros [H|H]%orb_true_iff; try discriminate.
    + apply startsWith_app in H as [post ->]. by exists "", post.
    + apply startsWith_app in H as [post ->]. by exists "", post.
    + destruct (IH H) as (pre & post & ->). by exists (String c pre), post.
  - intros (pre & post & ->). induction pre as [|c pre IH].
    + rewrite includes_unfold. apply orb_true_iff. left.
      apply startsWith_app. by exists post.
    + rewrite includes_unfold. apply orb_true_iff. right. exact IH.
Qed.

Lemma indexOf_unfold s t :
  indexOf s t
  = if startsWith s t then 0%Z
    else match s with
         | "" => (-1)%Z
         | String _ s' =>
             if (indexOf s' t <? 0)%Z then (-1)%Z else (indexOf s' t + 1)%Z
         end.
Proof. destruct s; reflexivity. Qed.

Lemma indexOf_range s t : (-1 <= indexOf s t)%Z.
Proof.
  induction s as [|c s IH]; rewrite indexOf_unfold;
    destruct (startsWith _ t); try lia.
  destruct (Z.ltb_spec (indexOf s t) 0); lia.
Qed.

(** [s.indexOf(t) >= 0] is [s.includes(t)]. *)
Lemma indexOf_includes s t : (0 <=? indexOf s t)%Z = includes s t.
Proof.
  induction s as [|c s IH]; rewrite indexOf_unfold, includes_unfold;
    destruct (startsWith _ t); simpl; try reflexivity.
  rewrite <- IH.
  destruct (Z.ltb_spec (indexOf s t) 0) as [Hlt|Hge].
  - symmetry. apply Z.leb_gt. exact Hlt.
  - transitivity true; [apply Z.leb_le; lia | symmetry; apply Z.leb_le; lia].
Qed.

Lemma length_replace_leading p s :
  String.length (replace_leading p s)
  = if startsWith s p then String.length s - String.length p
    else String.length s.
Proof.
  unfold replace_leading. destruct (startsWith s p); [apply length_drop | done].
Qed.

Lemma length_replace_trailing p s :
  String.length (replace_trailing p s)
  = if endsWith s p then String.length s - String.length p
    else String.length s.
Proof.
  unfold replace_trailing. destruct (endsWith s p); [|done].
  rewrite length_take. lia.
Qed.

Lemma length_trimStart s : String.length (trimStart s) <= String.length s.
Proof.
  induction s as [|c s IH]; simpl; [lia|].
  destruct (isWhiteSpace c); simpl; lia.
Qed.

Lemma length_trimEnd s : String.length (trimEnd s) <= String.length s.
Proof.
  induction s as [|c s IH]; simpl; [lia|].
  destruct (trimEnd s); [destruct (isWhiteSpace c)|]; simpl in *; lia.
Qed.

Lemma length_trim s : String.length (trim s) <= String.length s.
Proof.
  unfold trim. pose proof (length_trimEnd (trimStart s)).
  pose proof (length_trimStart s). lia.
Qed.

Lemma trimStart_head s : head_trimmed (trimStart s) = true.
Proof.
  induction s as [|c s IH]; simpl; [done|].
  destruct (isWhiteSpace c) eqn:Hc; simpl; [done | by rewrite Hc].
Qed.

Lemma trimStart_fixed s : head_trimmed s = true -> trimStart s = s.
Proof.
  destruct s as [|c s]; simpl; [done|].
  by intros ->%negb_true_iff.
Qed.

Lemma trimEnd_head s : head_trimmed s = true -> head_trimmed (trimEnd s) = true.
Proof.
  destruct s as [|c s]; simpl; [done|].
  intros Hc. destruct (trimEnd s); simpl; [|done].
  apply negb_true_iff in Hc. by rewrite Hc; simpl; rewrite Hc.
Qed.

Lemma trimEnd_idem s : trimEnd (trimEnd s) = trimEnd s.
Proof.
  induction s as [|c s IH]; simpl; [done|].
  destruct (trimEnd s) as [|a t] eqn:Ht.
  - destruct (isWhiteSpace c) eqn:Hc; simpl; [done | by rewrite Hc].
  - change (trimEnd (String c (String a t)))
      with (match trimEnd (String a t) with
            | "" => if isWhiteSpace c then "" else String c ""
            | u => String c u
            end).
    by rewrite IH.
Qed.

Lemma trim_idem s : trim (trim s) = trim s.
Proof.
  unfold trim.
  rewrite (trimStart_fixed (trimEnd (trimStart s))).
  - apply trimEnd_idem.
  - apply trimEnd_head, trimStart_head.
Qed.

End StrFacts.

(** ** [normalize] *)

Lemma normalize_shrinks y :
  Str.startsWith y fence_mermaid = true \/ Str.endsWith y fence = true ->
  String.length (normalize y) < String.length y.
Proof.
  intros H. unfold normalize.
  set (z := Str.replace_leading fence_mermaid y).
  pose proof (length_trim (Str.replace_trailing fence z)) as Ht.
  pose proof (length_replace_trailing fence z) as Hz.
  pose proof (length_replace_leading fence_mermaid y) as Hy.
  fold z in Hy.
  destruct (Str.startsWith y fence_mermaid) eqn:Hp.
  - apply startsWith_length in Hp. change (String.length fence_mermaid) with 10 in *.
    destruct (Str.endsWith z fence); lia.
  - destruct H as [H|H]; [discriminate|].
    assert (z = y) as Hzy by (unfold z, Str.replace_leading; by rewrite Hp).
    rewrite Hzy in *. rewrite H in Hz.
    unfold Str.endsWith in H. apply andb_true_iff in H as [H _].
    apply Nat.leb_le in H. change (String.length fence) with 3 in *. lia.
Qed.

Lemma normalize_fenceless y :
  Str.startsWith y fence_mermaid = false -> Str.endsWith y fence = false ->
  normalize y = Str.trim y.
Proof.
  intros Hp Hs. unfold normalize, Str.replace_leading. rewrite Hp.
  unfold Str.replace_trailing. by rewrite Hs.
Qed.

(** C4, as stated (for every string [x], normalize(normalize(x)) ==
    normalize(x)), fails on a fenced diagram followed by a line break: the
    closing fence is looked for before the text is trimmed, so the first
    pass keeps it and the second pass removes it. *)
Lemma normalize_not_idempotent :
  let x := "```mermaid" +:+ LF +:+ "graph TD" +:+ LF +:+ "```" +:+ LF in
  normalize x = "graph TD" +:+ LF +:+ "```"
  /\ normalize (normalize x) = "graph TD"
  /\ normalize (normalize x) <> normalize x.
Proof. vm_compute. repeat split. discriminate. Qed.

(** C4, amended: normalizing twice gives the same as normalizing once
    exactly when the normalized text neither begins with the opening fence
    and language tag nor ends with a fence. *)
Theorem normalize_idempotent_iff (x : string) :
  normalize (normalize x) = normalize x
  <-> Str.startsWith (normalize x) fence_mermaid = false
      /\ Str.endsWith (normalize x) fence = false.
Proof.
  split.
  - intros Heq.
    destruct (Str.startsWith (normalize x) fence_mermaid) eqn:Hp.
    + pose proof (normalize_shrinks (normalize x) (or_introl Hp)) as Hlt.
      rewrite Heq in Hlt. lia.
    + destruct (Str.endsWith (normalize x) fence) eqn:Hs; [|done].
      pose proof (normalize_shrinks (normalize x) (or_intror Hs)) as Hlt.
      rewrite Heq in Hlt. lia.
  - intros [Hp Hs]. rewrite (normalize_fenceless _ Hp Hs).
    unfold normalize. apply trim_idem.
Qed.

(** ** The panel *)

Lemma find_first {A} (f : A -> bool) (l : list A) (x : A) :
  find f l = Some x ->
  exists before after,
    l = before ++ x :: after /\ f x = true /\ Forall (fun y => f y = false) before.
Proof.
  induction l as [|a l IH]; simpl; [discriminate|].
  destruct (f a) eqn:Ha.
  - intros [= ->]. exists [], l. auto.
  - intros (before & after & -> & Hx & Hb)%IH.
    exists (a :: before), after. auto.
Qed.

(** What [poll] returns is the first recorded parse result with the
    awaited nonce, and firing the interval longer changes nothing. *)
Lemma poll_first E posts nonce fuel tick st pd st' :
  poll E posts nonce fuel tick st = Some (pd, st') ->
  find (fun p => String.eqb (pd_nonce p) nonce) (parseDetails (fst st')) = Some pd
  /\ forall fuel', fuel <= fuel' -> poll E posts nonce fuel' tick st = Some (pd, st').
Proof.
  revert tick st. induction fuel as [|fuel IH]; intros tick st; simpl; [discriminate|].
  destruct (find _ (parseDetails (fst (fold_left _ (posts tick) st)))) as [q|] eqn:Hfind.
  - intros [= -> <-]. split; [exact Hfind|].
    intros [|fuel'] Hle; [lia|]. simpl. by rewrite Hfind.
  - intros [Hf Hmore]%IH. split; [exact Hf|].
    intros [|fuel'] Hle; [lia|]. simpl. rewrite Hfind. apply Hmore. lia.
Qed.

Lemma onDidReceiveMessage_diagram E msgs st :
  _diagram (fst (fold_left (onDidReceiveMessage E) msgs st)) = _diagram (fst st)
  /\ webview_html (fst (fold_left (onDidReceiveMessage E) msgs st))
     = webview_html (fst st).
Proof.
  revert st. induction msgs as [|m msgs IH]; intros st; cbn [fold_left]; [done|].
  destruct (IH (onDidReceiveMessage E st m)) as [-> ->]. by destruct st.
Qed.

(** Polling records parse results; it never touches the panel's diagram
    or the webview's document. *)
Lemma poll_diagram E posts nonce fuel tick st pd st' :
  poll E posts nonce fuel tick st = Some (pd, st') ->
  _diagram (fst st') = _diagram (fst st)
  /\ webview_html (fst st') = webview_html (fst st).
Proof.
  revert tick st. induction fuel as [|fuel IH]; intros tick st; simpl; [discriminate|].
  destruct (find _ _).
  - intros [= _ <-]. apply onDidReceiveMessage_diagram.
  - intros [-> ->]%IH. apply onDidReceiveMessage_diagram.
Qed.

(** C3: a candidate whose body contains the fence sequence is refused by
    the validation step at once, whatever panel is current and without a
    single firing of the polling interval: no validation document is given
    to the webview, so the rendering engine is not run for it, and no
    parse result is awaited. *)
Theorem fenced_body_rejected (E : Env) (pollFuel time : nat)
    (current : option DiagramEditorPanel) (log : list string) (d : Diagram) :
  Str.Contains (content d) fence ->
  exists this' log',
    createOrShow E pollFuel time current log d
    = Some (Failure extra_fence_error, (this', log'))
    /\ webview_html this'
       = match current with Some this => webview_html this | None => [] end
    /\ parseDetails this'
       = match current with Some this => parseDetails this | None => [] end.
Proof.
  intros Hc%includes_Contains.
  destruct current as [this|]; unfold createOrShow, _validate; cbn [_diagram];
    rewrite indexOf_includes, Hc; eauto.
Qed.

Lemma fenced_body_rejected_witness :
  Str.Contains "graph TD```" fence
  /\ exists this' log',
       createOrShow Sample.always_failing 0 7 (Some Sample.panel) []
         {| content := "graph TD```" |}
       = Some (Failure extra_fence_error, (this', log'))
       /\ webview_html this' = webview_html Sample.panel
       /\ parseDetails this' = parseDetails Sample.panel.
Proof.
  assert (Str.Contains "graph TD```" fence) as H by (by exists "graph TD", "").
  split; [exact H|].
  exact (fenced_body_rejected Sample.always_failing 0 7 (Some Sample.panel) []
           {| content := "graph TD```" |} H).
Defined.

Lemma onDidReceiveMessage_records E msgs st :
  parseDetails (fst (fold_left (onDidReceiveMessage E) msgs st))
  = parseDetails (fst st) ++ msgs.
Proof.
  revert st. induction msgs as [|m msgs IH]; intros st; cbn [fold_left].
  - by rewrite app_nil_r.
  - rewrite IH. destruct st as [this log]. cbn. by rewrite <- app_assoc.
Qed.

(** Once the webview has posted a result with the awaited nonce, before
    the firing number [k], the promise resolves within [k + 1] firings. *)
Lemma poll_resolves E posts nonce k tick st pd :
  pd ∈ posts (tick + k) -> pd_nonce pd = nonce ->
  exists r, poll E posts nonce (S k) tick st = Some r.
Proof.
  revert tick st. induction k as [|k IH]; intros tick st Hin Hn;
    cbn [poll];
    destruct (find _ (parseDetails (fst (fold_left _ (posts tick) st))))
      as [q|] eqn:Hfind; eauto.
  - exfalso. rewrite Nat.add_0_r in Hin.
    eapply find_none in Hfind.
    + rewrite Hn, String.eqb_refl in Hfind. discriminate.
    + rewrite onDidReceiveMessage_records. apply in_or_app. right.
      by apply list_elem_of_In.
  - apply IH; [|done]. by replace (S tick + k) with (tick + S k) by lia.
Qed.

(** C8: a validation that awaits the parse result for its nonce delivers
    at most one outcome, that of the first recorded parse result carrying
    this nonce; results recorded before it carry other nonces; however
    much longer the interval is left to fire, the outcome and the panel
    stay the same; and an outcome is delivered once the webview has posted
    a result with the nonce. *)
Theorem validate_first_matching (E : Env) (time : nat)
    (this : DiagramEditorPanel) (log : list string) (d : option Diagram) :
  Str.includes (content (candidate this d)) fence = false ->
  let nonce := pretty (getTime E time) in
  (forall pollFuel result this' log',
      _validate E pollFuel time (this, log) d = Some (result, (this', log')) ->
      (exists pd before after,
          parseDetails this' = before ++ pd :: after
          /\ Forall (fun q => pd_nonce q <> nonce) before
          /\ pd_nonce pd = nonce
          /\ result = outcome_of pd)
      /\ forall pollFuel', pollFuel <= pollFuel' ->
           _validate E pollFuel' time (this, log) d = Some (result, (this', log')))
  /\ (forall k pd,
        pd ∈ webview_posts E (HtmlToValidateMermaid (candidate this d) nonce) k ->
        pd_nonce pd = nonce ->
        exists result st', _validate E (S k) time (this, log) d = Some (result, st')).
Proof.
  intros Hfence nonce. unfold _validate.
  set (this1 := match d with Some d' => _ | None => this end).
  assert (_diagram this1 = candidate this d) as Hd by (by destruct d).
  rewrite indexOf_includes, Hd, Hfence.
  fold nonce. split.
  - intros pollFuel result this' log' Hv.
    destruct (poll E _ nonce pollFuel 0 _) as [[pd st2]|] eqn:Hp; [|discriminate].
    apply poll_first in Hp as [Hfind Hmore].
    apply find_first in Hfind as (before & after & Hsplit & Hpd & Hbefore).
    apply String.eqb_eq in Hpd.
    assert (Forall (fun q => pd_nonce q <> nonce) before) as Hbefore'.
    { eapply Forall_impl; [exact Hbefore|]. intros q Hq. by apply String.eqb_neq. }
    split.
    + exists pd, before, after.
      destruct st2 as [this2 log2], pd; injection Hv as <- <- <-; simpl in *; auto.
    + intros pollFuel' Hle. rewrite (Hmore _ Hle). exact Hv.
  - intros k pd Hin Hn.
    edestruct (poll_resolves E) as [[pd' [this2 log2]] ->]; [exact Hin | exact Hn |].
    destruct pd'; eauto.
Qed.

Lemma validate_first_matching_witness :
  let this' :=
    {| _diagram := Sample.accepted;
       parseDetails :=
         [ParseSuccess "1699999999999"; ParseSuccess "stale";
          ParseFailure "unexpected token" "1700000000003" None;
          ParseSuccess "1700000000003"];
       webview_html :=
         webview_html Sample.panel
         ++ [HtmlToValidateMermaid Sample.accepted "1700000000003"] |} in
  let log' :=
    ["(Chat) Parse Result: stale"; "(Chat) Parse Result: 1700000000003";
     "(Chat) Parse Result: 1700000000003"] in
  Str.includes (content Sample.accepted) fence = false
  /\ _validate Sample.slow_webview 3 3 (Sample.panel, []) None
     = Some (Failure "unexpected token", (this', log'))
  /\ (exists pd before after,
         parseDetails this' = before ++ pd :: after
         /\ Forall (fun q => pd_nonce q <> "1700000000003") before
         /\ pd_nonce pd = "1700000000003"
         /\ Failure "unexpected token" = outcome_of pd)
  /\ forall pollFuel', 3 <= pollFuel' ->
       _validate Sample.slow_webview pollFuel' 3 (Sample.panel, []) None
       = Some (Failure "unexpected token", (this', log')).
Proof.
  intros this' log'.
  assert (_validate Sample.slow_webview 3 3 (Sample.panel, []) None
          = Some (Failure "unexpected token", (this', log'))) as H
    by (vm_compute; reflexivity).
  split; [reflexivity|]. split; [exact H|].
  exact (proj1 (validate_first_matching Sample.slow_webview 3 Sample.panel [] None
                  eq_refl)
           3 (Failure "unexpected token") this' log' H).
Defined.

(** C10: on an existing panel, the candidate replaces the panel's diagram
    before its validity is known: when the validation fails, the panel's
    diagram, which a later iterate request reads, is the failing candidate
    whatever diagram the panel held. *)
Theorem failed_candidate_is_current (E : Env) (pollFuel time : nat)
    (this : DiagramEditorPanel) (log : list string) (d : Diagram)
    (error : string) (this' : DiagramEditorPanel) (log' : list string) :
  createOrShow E pollFuel time (Some this) log d
  = Some (Failure error, (this', log')) ->
  diagram this' = d.
Proof.
  unfold createOrShow, _validate, diagram. cbn [_diagram parseDetails webview_html].
  destruct (0 <=? Str.indexOf (content d) fence)%Z.
  - by intros [= _ <- _].
  - destruct (poll _ _ _ _ _ _) as [[pd st2]|] eqn:Hp; [|discriminate].
    apply poll_diagram in Hp as [Hd _]. simpl in Hd.
    destruct st2 as [this2 log2], pd; intros [= <- <-]; try done.
Qed.

Lemma failed_candidate_is_current_witness :
  let d := {| content := "graph XX" |} in
  let this' :=
    {| _diagram := d;
       parseDetails :=
         [ParseSuccess "1699999999999";
          ParseFailure "unexpected token" "1700000000001" None];
       webview_html :=
         webview_html Sample.panel ++ [HtmlToValidateMermaid d "1700000000001"] |} in
  let log' := ["Revealing existing panel"; "(Chat) Parse Result: 1700000000001"] in
  createOrShow Sample.always_failing 1 1 (Some Sample.panel) [] d
  = Some (Failure "unexpected token", (this', log'))
  /\ diagram this' = d
  /\ diagram Sample.panel <> d.
Proof.
  intros d this' log'.
  assert (createOrShow Sample.always_failing 1 1 (Some Sample.panel) [] d
          = Some (Failure "unexpected token", (this', log'))) as H
    by (vm_compute; reflexivity).
  split; [exact H|]. split; [|discriminate].
  exact (failed_candidate_is_current Sample.always_failing 1 1 Sample.panel [] d
           "unexpected token" this' log' H).
Defined.

(** ** The stream loop *)

Lemma append_assoc (a b c : string) : (a +:+ b) +:+ c = a +:+ (b +:+ c).
Proof.
  induction a as [|x a IH]; [done|].
  change (String x ((a +:+ b) +:+ c) = String x (a +:+ (b +:+ c))).
  by rewrite IH.
Qed.

Lemma append_nil_r (a : string) : a +:+ "" = a.
Proof.
  induction a as [|x a IH]; [done|].
  change (String x (a +:+ "") = String x a). by rewrite IH.
Qed.

Section StreamLoopFacts.

Variable st : StreamLoop.
Variable part : ResponsePart.

(** A part that is not a text chunk leaves the capture alone. *)
Lemma loop_body_other :
  text_value part = None ->
  isMermaidDiagramStreamingIn (loop_body st part) = isMermaidDiagramStreamingIn st
  /\ mermaidDiagram (loop_body st part) = mermaidDiagram st
  /\ emitted (loop_body st part) = emitted st.
Proof.
  unfold text_value, loop_body. destruct (adapt part); by try discriminate.
Qed.

Variable value : string.
Hypothesis Htext : text_value part = Some value.

Lemma adapt_text : adapt part = TextPart value.
Proof.
  unfold text_value in Htext. destruct (adapt part); congruence.
Qed.

(** PROSE, no marker: the chunk goes to the prose sink. *)
Lemma loop_body_prose :
  isMermaidDiagramStreamingIn st = false ->
  Str.includes value fence_open_marker = false ->
  isMermaidDiagramStreamingIn (loop_body st part) = false
  /\ mermaidDiagram (loop_body st part) = mermaidDiagram st
  /\ emitted (loop_body st part) = emitted st ++ [markdown value].
Proof.
  intros Hs Hm. unfold loop_body. rewrite adapt_text, Hs, Hm. simpl.
  by rewrite Hs.
Qed.

(** PROSE, marker: the transition, and the chunk is the first captured. *)
Lemma loop_body_trigger :
  isMermaidDiagramStreamingIn st = false ->
  Str.includes value fence_open_marker = true ->
  isMermaidDiagramStreamingIn (loop_body st part) = true
  /\ mermaidDiagram (loop_body st part) = mermaidDiagram st +:+ value
  /\ emitted (loop_body st part) = emitted st ++ [progress capturing_notice].
Proof.
  intros Hs Hm. unfold loop_body. by rewrite adapt_text, Hs, Hm.
Qed.

(** CAPTURING_DIAGRAM: the chunk is appended to the buffer. *)
Lemma loop_body_capture :
  isMermaidDiagramStreamingIn st = true ->
  isMermaidDiagramStreamingIn (loop_body st part) = true
  /\ mermaidDiagram (loop_body st part) = mermaidDiagram st +:+ value
  /\ emitted (loop_body st part) = emitted st.
Proof.
  intros Hs. unfold loop_body. rewrite adapt_text, Hs. simpl. by rewrite Hs.
Qed.

End StreamLoopFacts.

Lemma text_values_cons part parts :
  text_values (part :: parts)
  = match text_value part with
    | Some v => v :: text_values parts
    | None => text_values parts
    end.
Proof. unfold text_values. simpl. by destruct (text_value part). Qed.

Lemma prose_sink_app a b : prose_sink (a ++ b) = prose_sink a ++ prose_sink b.
Proof. apply omap_app. Qed.

(** While no chunk carries the marker the loop stays in PROSE. *)
Lemma loop_stays_prose parts st :
  isMermaidDiagramStreamingIn st = false ->
  (forall u, u ∈ text_values parts -> ~ Str.Contains u fence_open_marker) ->
  isMermaidDiagramStreamingIn (fold_left loop_body parts st) = false
  /\ mermaidDiagram (fold_left loop_body parts st) = mermaidDiagram st
  /\ prose_sink (emitted (fold_left loop_body parts st))
     = prose_sink (emitted st) ++ text_values parts.
Proof.
  revert st. induction parts as [|part parts IH]; intros st Hs Hno; cbn [fold_left].
  - by rewrite app_nil_r.
  - rewrite text_values_cons in *.
    destruct (text_value part) as [v|] eqn:Hv.
    + assert (Str.includes v fence_open_marker = false) as Hm.
      { apply not_true_is_false. intros Hc%includes_Contains.
        apply (Hno v); [left | exact Hc]. }
      destruct (loop_body_prose st part v Hv Hs Hm) as (Hs1 & Hd1 & He1).
      destruct (IH (loop_body st part) Hs1) as (Hs2 & Hd2 & He2).
      { intros u Hu. apply Hno. by right. }
      rewrite Hs2, Hd2, He2, Hd1, He1, prose_sink_app. simpl.
      by rewrite <- app_assoc.
    + destruct (loop_body_other st part Hv) as (Hs1 & Hd1 & He1).
      rewrite <- Hs1 in Hs.
      destruct (IH (loop_body st part) Hs Hno) as (Hs2 & Hd2 & He2).
      by rewrite Hs2, Hd2, He2, Hd1, He1.
Qed.

(** Once capturing, every text chunk goes to the buffer and nothing more
    to the chat stream. *)
Lemma loop_keeps_capturing parts st :
  isMermaidDiagramStreamingIn st = true ->
  mermaidDiagram (fold_left loop_body parts st)
  = mermaidDiagram st +:+ appended (text_values parts)
  /\ emitted (fold_left loop_body parts st) = emitted st.
Proof.
  revert st. induction parts as [|part parts IH]; intros st Hs; cbn [fold_left].
  - by rewrite append_nil_r.
  - rewrite text_values_cons.
    destruct (text_value part) as [v|] eqn:Hv.
    + destruct (loop_body_capture st part v Hv Hs) as (Hs1 & Hd1 & He1).
      destruct (IH (loop_body st part) Hs1) as (Hd2 & He2).
      rewrite Hd2, He2, Hd1, He1. by rewrite append_assoc.
    + destruct (loop_body_other st part Hv) as (Hs1 & Hd1 & He1).
      rewrite <- Hs1 in Hs.
      destruct (IH (loop_body st part) Hs) as (Hd2 & He2).
      by rewrite Hd2, He2, Hd1, He1.
Qed.

(** C2: when the first text chunk containing two consecutive backticks
    is chunk k, the diagram buffer is chunk k followed by every later
    text chunk, and the prose sink received exactly the text chunks before
    k, in order; when no text chunk contains the marker the buffer is
    empty and every text chunk reached the prose sink. *)
Theorem capture_from_first_marker :
  (forall (before after : list ResponsePart) (part : ResponsePart) (v : string),
      (forall u, u ∈ text_values before -> ~ Str.Contains u fence_open_marker) ->
      text_value part = Some v ->
      Str.Contains v fence_open_marker ->
      mermaidDiagram (stream_loop (before ++ part :: after))
      = appended (v :: text_values after)
      /\ prose_sink (emitted (stream_loop (before ++ part :: after)))
         = text_values before)
  /\ (forall parts : list ResponsePart,
        (forall u, u ∈ text_values parts -> ~ Str.Contains u fence_open_marker) ->
        mermaidDiagram (stream_loop parts) = ""
        /\ prose_sink (emitted (stream_loop parts)) = text_values parts).
Proof.
  split.
  - intros before after part v Hno Hv Hc%includes_Contains.
    unfold stream_loop. rewrite fold_left_app. cbn [fold_left].
    destruct (loop_stays_prose before loop_init eq_refl Hno) as (Hs1 & Hd1 & He1).
    destruct (loop_body_trigger _ part v Hv Hs1 Hc) as (Hs2 & Hd2 & He2).
    destruct (loop_keeps_capturing after _ Hs2) as (Hd3 & He3).
    rewrite Hd3, He3, Hd2, He2, Hd1, prose_sink_app, He1. simpl.
    split; [done | by rewrite app_nil_r].
  - intros parts Hno. unfold stream_loop.
    destruct (loop_stays_prose parts loop_init eq_refl Hno) as (_ & Hd & He).
    by rewrite Hd, He.
Qed.

Lemma no_marker_check (chunks : list string) :
  forallb (fun u => negb (Str.includes u fence_open_marker)) chunks = true ->
  forall u, u ∈ chunks -> ~ Str.Contains u fence_open_marker.
Proof.
  intros Hall u Hu%list_elem_of_In Hc%includes_Contains.
  rewrite forallb_forall in Hall. specialize (Hall u Hu).
  by rewrite Hc in Hall.
Qed.

Lemma capture_from_first_marker_witness :
  let call := {| callId := "call_1"; name := "lookup"; input := "{}" |} in
  let before :=
    [TextPart "Here is "; ToolCallPart call; GroqChunk (Some ("a result:" +:+ LF))] in
  let part := TextPart ("```mermaid" +:+ LF +:+ "A-->B") in
  let after := [GroqChunk None; TextPart (LF +:+ "```"); OtherPart; TextPart LF] in
  ((forall u, u ∈ text_values before -> ~ Str.Contains u fence_open_marker)
   /\ text_value part = Some ("```mermaid" +:+ LF +:+ "A-->B")
   /\ Str.Contains ("```mermaid" +:+ LF +:+ "A-->B") fence_open_marker
   /\ mermaidDiagram (stream_loop (before ++ part :: after))
      = "```mermaid" +:+ LF +:+ "A-->B" +:+ LF +:+ "```" +:+ LF
   /\ prose_sink (emitted (stream_loop (before ++ part :: after)))
      = ["Here is "; "a result:" +:+ LF])
  /\ (mermaidDiagram (stream_loop before) = ""
      /\ prose_sink (emitted (stream_loop before)) = ["Here is "; "a result:" +:+ LF]).
Proof.
  intros call before part after.
  assert (forall u, u ∈ text_values before -> ~ Str.Contains u fence_open_marker)
    as Hno by (apply no_marker_check; reflexivity).
  assert (Str.Contains ("```mermaid" +:+ LF +:+ "A-->B") fence_open_marker) as Hc
    by (by exists "", ("`mermaid" +:+ LF +:+ "A-->B")).
  split.
  - split; [exact Hno|]. split; [reflexivity|]. split; [exact Hc|].
    exact (proj1 capture_from_first_marker before after part _ Hno eq_refl Hc).
  - exact (proj2 capture_from_first_marker before Hno).
Defined.

(** ** Tool-call rounds *)

Lemma resolveToolCalls_ids E results n calls :
  (resolveToolCalls E results n calls).1.*1 = callId <$> calls.
Proof.
  revert n. induction calls as [|call rest IH]; intros n; simpl; [done|].
  destruct (results !! callId call).
  - specialize (IH n). destruct (resolveToolCalls E results n rest).
    cbn [fst snd] in *. rewrite fmap_cons, IH. done.
  - specialize (IH (S n)). destruct (resolveToolCalls E results (S n) rest).
    cbn [fst snd] in *. rewrite fmap_cons, IH. done.
Qed.

(** A result already in the map is reported as it is recorded. *)
Lemma resolveToolCalls_recorded E results n calls id r r0 :
  (id, r) ∈ (resolveToolCalls E results n calls).1 ->
  results !! id = Some r0 -> r = r0.
Proof.
  revert n. induction calls as [|call rest IH]; intros n; simpl.
  - by intros ?%elem_of_nil.
  - destruct (results !! callId call) as [r1|] eqn:Hcall.
    + specialize (IH n). destruct (resolveToolCalls E results n rest). simpl in *.
      intros [[= -> ->]|Hin]%elem_of_cons Hid; [congruence | eauto].
    + specialize (IH (S n)). destruct (resolveToolCalls E results (S n) rest).
      simpl in *.
      intros [[= -> ->]|Hin]%elem_of_cons Hid; [congruence | eauto].
Qed.

(** The invoker is called once for each call whose identifier is not in
    the map, and for no other. *)
Lemma resolveToolCalls_invocations E results n calls :
  (resolveToolCalls E results n calls).2
  = n + length (List.filter
                  (fun call => bool_decide (results !! callId call = None)) calls).
Proof.
  revert n. induction calls as [|call rest IH]; intros n; simpl; [lia|].
  destruct (results !! callId call) as [r1|] eqn:Hcall.
  - specialize (IH n). destruct (resolveToolCalls E results n rest). simpl in *.
    exact IH.
  - specialize (IH (S n)). destruct (resolveToolCalls E results (S n) rest).
    simpl in *. lia.
Qed.

Lemma foldToolResults_lookup metas acc id :
  (id ∈ metas.*1 ->
   exists r, (id, r) ∈ metas /\ foldToolResults metas acc !! id = Some r)
  /\ (id ∉ metas.*1 -> foldToolResults metas acc !! id = acc !! id).
Proof.
  revert acc. induction metas as [|[k v] metas IH]; intros acc.
  - split; [by intros ?%elem_of_nil | done].
  - unfold foldToolResults in *. cbn [fold_left fst snd].
    destruct (IH (<[k:=v]> acc)) as [IHin IHout].
    destruct (decide (id ∈ metas.*1)) as [Hin|Hout].
    + split; [|intros Hn; exfalso; apply Hn; simpl; by right].
      intros _. destruct (IHin Hin) as (r & Hr & Hl).
      exists r. split; [by right | done].
    + rewrite (IHout Hout). split.
      * simpl. intros [->|?]%elem_of_cons; [|done].
        exists v. split; [left | by rewrite lookup_insert_eq].
      * simpl. intros Hn. rewrite lookup_insert_ne; [done|].
        intros ->. apply Hn. left.
Qed.

(** Folding the reported results keeps every recorded result when the
    results reported for recorded identifiers are the recorded ones. *)
Lemma foldToolResults_grows metas acc :
  (forall id r r0, (id, r) ∈ metas -> acc !! id = Some r0 -> r = r0) ->
  acc ⊆ foldToolResults metas acc.
Proof.
  intros Hsame. apply map_subseteq_spec. intros id r0 Hid.
  destruct (foldToolResults_lookup metas acc id) as [Hin Hout].
  destruct (decide (id ∈ metas.*1)) as [Hmem|Hmem].
  - destruct (Hin Hmem) as (r & Hr & ->). f_equal. eauto.
  - by rewrite (Hout Hmem).
Qed.

Lemma tool_round_spec E s l :
  exists metas,
    renderPrompt E (toolCallRounds (tool_round E s l)) (accumulatedToolResults s)
      (tool_invocations s)
    = (messages (tool_round E s l), metas, tool_invocations (tool_round E s l))
    /\ accumulatedToolResults (tool_round E s l)
       = foldToolResults metas (accumulatedToolResults s)
    /\ toolCallRounds (tool_round E s l)
       = toolCallRounds s
         ++ [{| response := responseStr l; toolCalls := loop_toolCalls l |}]
    /\ retries (tool_round E s l) = retries s
    /\ currentPanel (tool_round E s l) = currentPanel s
    /\ outputChannel (tool_round E s l) = outputChannel s
    /\ lm_requests (tool_round E s l) = lm_requests s
    /\ stream (tool_round E s l) = stream s ++ emitted l.
Proof.
  unfold tool_round.
  destruct (renderPrompt E
              (toolCallRounds s
               ++ [{| response := responseStr l; toolCalls := loop_toolCalls l |}])
              (accumulatedToolResults s) (tool_invocations s))
    as [[msgs metas] n] eqn:Hr.
  exists metas. cbn. by rewrite Hr.
Qed.

(** What the tool-call branch does to the map: every reported result is
    folded in, every recorded result is kept, every call of the history
    has a result afterwards, and the invoker was called exactly for the
    calls whose identifier the map lacked. *)
Lemma tool_round_results E s l :
  exists metas,
    renderPrompt E (toolCallRounds (tool_round E s l)) (accumulatedToolResults s)
      (tool_invocations s)
    = (messages (tool_round E s l), metas, tool_invocations (tool_round E s l))
    /\ (forall id, id ∈ metas.*1 ->
          exists r, (id, r) ∈ metas
                    /\ accumulatedToolResults (tool_round E s l) !! id = Some r)
    /\ accumulatedToolResults s ⊆ accumulatedToolResults (tool_round E s l)
    /\ (forall round call,
          round ∈ toolCallRounds (tool_round E s l) -> call ∈ toolCalls round ->
          is_Some (accumulatedToolResults (tool_round E s l) !! callId call))
    /\ tool_invocations (tool_round E s l)
       = tool_invocations s
         + length (List.filter
                     (fun call =>
                        bool_decide (accumulatedToolResults s !! callId call = None))
                     (concat (map toolCalls (toolCallRounds (tool_round E s l))))).
Proof.
  destruct (tool_round_spec E s l) as (metas & Hr & Hacc & Hrounds & _).
  exists metas. split; [exact Hr|].
  assert (metas = (resolveToolCalls E (accumulatedToolResults s) (tool_invocations s)
                     (concat (map toolCalls (toolCallRounds (tool_round E s l))))).1
          /\ tool_invocations (tool_round E s l)
             = (resolveToolCalls E (accumulatedToolResults s) (tool_invocations s)
                  (concat (map toolCalls (toolCallRounds (tool_round E s l))))).2)
    as [Hmetas Hn].
  { unfold renderPrompt in Hr.
    destruct (resolveToolCalls E _ _ _) as [metas' n']. by injection Hr as _ <- <-. }
  rewrite Hacc. split; [|split; [|split]].
  - intros id Hid. by apply foldToolResults_lookup.
  - apply foldToolResults_grows. intros id r r0 Hin Hid. rewrite Hmetas in Hin.
    eapply resolveToolCalls_recorded; eauto.
  - intros round call Hround Hcall.
    destruct (foldToolResults_lookup metas (accumulatedToolResults s) (callId call))
      as [Hin _].
    destruct Hin as (r & _ & ->); [|done].
    rewrite Hmetas, resolveToolCalls_ids. apply list_elem_of_fmap. exists call.
    split; [done|]. apply list_elem_of_In, in_concat. exists (toolCalls round).
    split; [|by apply list_elem_of_In]. apply in_map. by apply list_elem_of_In.
  - rewrite Hn. apply resolveToolCalls_invocations.
Qed.

(** ** One activation *)

Lemma handle_parse_error_frame s raw error :
  retries (turn_of (handle_parse_error s raw error)) = S (retries s)
  /\ accumulatedToolResults (turn_of (handle_parse_error s raw error))
     = accumulatedToolResults s
  /\ toolCallRounds (turn_of (handle_parse_error s raw error)) = toolCallRounds s
  /\ currentPanel (turn_of (handle_parse_error s raw error)) = currentPanel s
  /\ lm_requests (turn_of (handle_parse_error s raw error)) = lm_requests s.
Proof.
  unfold handle_parse_error. by destruct (S (retries s) <? 4)%nat.
Qed.


Lemma validated_frame E pollFuel s l result s1 :
  validated E pollFuel s l = Some (result, s1) ->
  retries s1 = retries s
  /\ messages s1 = messages s
  /\ accumulatedToolResults s1 = accumulatedToolResults s
  /\ toolCallRounds s1 = toolCallRounds s
  /\ lm_requests s1 = lm_requests s
  /\ stream s1 = stream s ++ emitted l ++ [progress "Validating mermaid diagram"].
Proof.
  unfold validated.
  destruct (createOrShow _ _ _ _ _ _) as [[r [panel log]]|]; [|discriminate].
  by intros [= _ <-].
Qed.

(** The outcomes of the validation branch. *)
Lemma validate_round_cases E pollFuel s l o :
  validate_round E pollFuel s l = Some o ->
  exists result s1,
    validated E pollFuel s l = Some (result, s1)
    /\ o = match result with
           | Success => Return (accepted_exit E s1 (newDiagram (mermaidDiagram l)))
           | Failure error => handle_parse_error s1 (mermaidDiagram l) error
           end.
Proof.
  unfold validate_round.
  destruct (validated E pollFuel s l) as [[[|error] s1]|]; [| |discriminate];
    intros [= <-]; by eexists _, _.
Qed.

Lemma after_response_cases E pollFuel s parts o :
  after_response E pollFuel s parts = Some o ->
  (loop_toolCalls (stream_loop parts) <> []
   /\ o = Recurse (tool_round E s (stream_loop parts)))
  \/ (loop_toolCalls (stream_loop parts) = []
      /\ validate_round E pollFuel s (stream_loop parts) = Some o).
Proof.
  unfold after_response.
  destruct (loop_toolCalls (stream_loop parts)) as [|call calls].
  - by right.
  - intros [= <-]. by left.
Qed.

Lemma activation_cases E pollFuel s o :
  activation E pollFuel s = Some o ->
  (nothing_to_iterate E s = true /\ o = Return (no_diagram_exit s))
  \/ (nothing_to_iterate E s = false
      /\ ((exists error, request_response E s = inl error /\ o = Throw error s)
          \/ exists parts out,
               request_response E s = inr (parts, out)
               /\ after_response E pollFuel (requested s out) parts = Some o)).
Proof.
  unfold activation.
  destruct (nothing_to_iterate E s).
  - intros [= <-]. by left.
  - intros H. right. split; [done|].
    destruct (request_response E s) as [error|[parts out]].
    + injection H as <-. left. by exists error.
    + right. by exists parts, out.
Qed.

(** A validation of the text captured from the response to [s] failed
    with [error], leaving the state [s1]. *)
Lemma FailedValidation_activation E pollFuel s raw error s1 :
  FailedValidation E pollFuel s raw error s1 ->
  activation E pollFuel s = Some (handle_parse_error s1 raw error)
  /\ retries s1 = retries s
  /\ messages s1 = messages s.
Proof.
  intros (Hno & parts & out & Hresp & Hcalls & -> & Hval).
  unfold activation, after_response, validate_round.
  rewrite Hno, Hresp, Hcalls, Hval.
  apply validated_frame in Hval as (Hr & Hm & _). by rewrite Hr, Hm.
Qed.

(** What one activation does to the retry counter, the map and the round
    history: the counter stays, or a validation failed and the parse-error
    handling raises it by one; the map and the history only grow. *)
Lemma activation_step E pollFuel s o :
  activation E pollFuel s = Some o ->
  accumulatedToolResults s ⊆ accumulatedToolResults (turn_of o)
  /\ toolCallRounds s `prefix_of` toolCallRounds (turn_of o)
  /\ (retries (turn_of o) = retries s
      \/ exists raw error s1,
           FailedValidation E pollFuel s raw error s1
           /\ o = handle_parse_error s1 raw error).
Proof.
  intros [[_ ->]|[Hno [(error & _ & ->)|(parts & out & Hresp & H)]]]%activation_cases.
  - cbn. auto.
  - cbn. auto.
  - apply after_response_cases in H as [[_ ->]|[Hcalls H]].
    + cbn [turn_of].
      destruct (tool_round_results E (requested s out) (stream_loop parts))
        as (_ & _ & _ & Hsub & _).
      destruct (tool_round_spec E (requested s out) (stream_loop parts))
        as (_ & _ & _ & -> & -> & _).
      split; [exact Hsub|]. split; [by apply prefix_app_r | by left].
    + apply validate_round_cases in H as (result & s1 & Hval & ->).
      destruct (validated_frame _ _ _ _ _ _ Hval) as (Hr & _ & Hm & Ht & _).
      destruct result as [|error].
      * cbn. rewrite Hm, Ht, Hr. auto.
      * destruct (handle_parse_error_frame s1 (mermaidDiagram (stream_loop parts))
                    error) as (_ & -> & -> & _).
        rewrite Hm, Ht. split; [done|]. split; [done|]. right.
        exists (mermaidDiagram (stream_loop parts)), error, s1.
        split; [|done]. split; [done|]. by exists parts, out.
Qed.

Lemma handle_parse_error_recurse s raw error s' :
  handle_parse_error s raw error = Recurse s' -> retries s' = S (retries s) /\ retries s < 3.
Proof.
  unfold handle_parse_error.
  destruct (Nat.ltb_spec (S (retries s)) 4); [|discriminate].
  intros [= <-]. cbn. lia.
Qed.

(** ** The turn *)

Lemma Reentered_cases E pollFuel s0 s :
  Reentered E pollFuel s0 s ->
  s = s0
  \/ exists s1, activation E pollFuel s0 = Some (Recurse s1)
                /\ Reentered E pollFuel s1 s.
Proof.
  induction 1 as [|s s' Hre IH Hact]; [by left|]. right.
  destruct IH as [->|(s1 & H1 & Hre1)].
  - exists s'. split; [done | constructor].
  - exists s1. split; [done|]. by eapply reentered_next.
Qed.

Lemma Reentered_trans E pollFuel s0 s1 s2 :
  Reentered E pollFuel s0 s1 -> Reentered E pollFuel s1 s2 ->
  Reentered E pollFuel s0 s2.
Proof.
  intros H01 H12. induction H12; [done|]. by eapply reentered_next.
Qed.

(** Over a turn the retry counter never passes 3 at re-entry, and the map
    and the round history only grow. *)
Lemma Reentered_invariant E pollFuel s0 s :
  Reentered E pollFuel s0 s ->
  (retries s0 <= 3 -> retries s <= 3)
  /\ accumulatedToolResults s0 ⊆ accumulatedToolResults s
  /\ toolCallRounds s0 `prefix_of` toolCallRounds s.
Proof.
  induction 1 as [|s s' Hre (IHr & IHm & IHt) Hact]; [done|].
  destruct (activation_step _ _ _ _ Hact) as (Hm & Ht & Hr). cbn [turn_of] in *.
  split; [|split].
  - intros H0. specialize (IHr H0).
    destruct Hr as [->|(raw & error & s1 & _ & Ho)]; [done|].
    symmetry in Ho. apply handle_parse_error_recurse in Ho as [-> ?]. lia.
  - by etrans.
  - by etrans.
Qed.

(** C7: a response with tool calls makes the loop append exactly one
    round, holding the prose of the response and all its tool calls,
    render the next prompt from the whole round history and the
    accumulated map, fold every reported result into the map under its
    call identifier and re-enter; every recorded result stays as it is
    (the invoker is called only for the calls whose identifier the map
    lacks), every call of the history has a result in the map afterwards;
    and from any state of the turn to any later one the map and the round
    history only grow. *)
Theorem tool_round_accumulates (E : Env) (pollFuel : nat) :
  (forall (s : Turn) (parts : list ResponsePart),
      loop_toolCalls (stream_loop parts) <> [] ->
      exists s' metas,
        after_response E pollFuel s parts = Some (Recurse s')
        /\ toolCallRounds s'
           = toolCallRounds s
             ++ [{| response := responseStr (stream_loop parts);
                    toolCalls := loop_toolCalls (stream_loop parts) |}]
        /\ renderPrompt E (toolCallRounds s') (accumulatedToolResults s)
             (tool_invocations s)
           = (messages s', metas, tool_invocations s')
        /\ (forall id, id ∈ metas.*1 ->
              exists r, (id, r) ∈ metas /\ accumulatedToolResults s' !! id = Some r)
        /\ accumulatedToolResults s ⊆ accumulatedToolResults s'
        /\ (forall round call,
              round ∈ toolCallRounds s' -> call ∈ toolCalls round ->
              is_Some (accumulatedToolResults s' !! callId call))
        /\ tool_invocations s'
           = tool_invocations s
             + length (List.filter
                         (fun call =>
                            bool_decide
                              (accumulatedToolResults s !! callId call = None))
                         (concat (map toolCalls (toolCallRounds s')))))
  /\ (forall s0 s : Turn,
        Reentered E pollFuel s0 s ->
        accumulatedToolResults s0 ⊆ accumulatedToolResults s
        /\ toolCallRounds s0 `prefix_of` toolCallRounds s).
Proof.
  split.
  - intros s parts Hcalls.
    destruct (tool_round_results E s (stream_loop parts))
      as (metas & Hr & Hfold & Hsub & Hall & Hn).
    destruct (tool_round_spec E s (stream_loop parts)) as (_ & _ & _ & Hrounds & _).
    exists (tool_round E s (stream_loop parts)), metas.
    split; [|done].
    unfold after_response. by destruct (loop_toolCalls (stream_loop parts)).
  - intros s0 s Hre. by apply Reentered_invariant in Hre as (_ & ? & ?).
Qed.

Lemma tool_round_accumulates_witness :
  let E := Sample.calling_tools in
  let s := initial_turn E None [] in
  loop_toolCalls (stream_loop Sample.tool_response) <> []
  /\ exists s' metas,
       after_response E 1 s Sample.tool_response = Some (Recurse s')
       /\ toolCallRounds s'
          = [{| response := "Let me look. ";
                toolCalls := [Sample.call_1; Sample.call_2] |}]
       /\ renderPrompt E (toolCallRounds s') ∅ 0
          = (messages s', metas, tool_invocations s')
       /\ (forall id, id ∈ metas.*1 ->
             exists r, (id, r) ∈ metas /\ accumulatedToolResults s' !! id = Some r)
       /\ (∅ : gmap string LanguageModelToolResult) ⊆ accumulatedToolResults s'
       /\ (forall round call,
             round ∈ toolCallRounds s' -> call ∈ toolCalls round ->
             is_Some (accumulatedToolResults s' !! callId call))
       /\ tool_invocations s' = 2.
Proof.
  intros E s. split; [discriminate|].
  destruct (proj1 (tool_round_accumulates E 1) s Sample.tool_response
              ltac:(discriminate))
    as (s' & metas & Hact & Hrounds & Hr & Hfold & Hsub & Hall & Hn).
  rewrite Hrounds in Hn.
  exists s', metas. repeat split; assumption.
Defined.

(** C9: when a response carries a tool call the loop re-enters without
    validating: the panel, the output channel and the retry counter are as
    they were, and the state it re-enters with is the same whatever text
    the response put in the diagram buffer, which starts empty in every
    activation; a response whose capture is validated (the validation
    writes to the output channel) carries no tool call. *)
Theorem tool_calls_discard_capture (E : Env) (pollFuel : nat) (s : Turn)
    (parts : list ResponsePart) :
  loop_toolCalls (stream_loop parts) <> [] ->
  after_response E pollFuel s parts
  = Some (Recurse (tool_round E s (stream_loop parts)))
  /\ currentPanel (tool_round E s (stream_loop parts)) = currentPanel s
  /\ outputChannel (tool_round E s (stream_loop parts)) = outputChannel s
  /\ retries (tool_round E s (stream_loop parts)) = retries s
  /\ (forall l' : StreamLoop,
        responseStr l' = responseStr (stream_loop parts) ->
        loop_toolCalls l' = loop_toolCalls (stream_loop parts) ->
        emitted l' = emitted (stream_loop parts) ->
        tool_round E s l' = tool_round E s (stream_loop parts))
  /\ mermaidDiagram loop_init = ""
  /\ (forall parts' o,
        after_response E pollFuel s parts' = Some o ->
        outputChannel (turn_of o) <> outputChannel s ->
        loop_toolCalls (stream_loop parts') = []).
Proof.
  intros Hcalls.
  destruct (tool_round_spec E s (stream_loop parts))
    as (_ & _ & _ & _ & Hr & Hp & Hlog & _).
  split; [|split; [done|split; [done|split; [done|split; [|split; [done|]]]]]].
  - unfold after_response. by destruct (loop_toolCalls (stream_loop parts)).
  - intros l' H1 H2 H3. unfold tool_round. by rewrite H1, H2, H3.
  - intros parts' o [[_ ->]|[Hnil _]]%after_response_cases Hlog'; [|done].
    destruct (tool_round_spec E s (stream_loop parts'))
      as (_ & _ & _ & _ & _ & _ & Hlog2 & _).
    cbn [turn_of] in Hlog'. by rewrite Hlog2 in Hlog'.
Qed.

Lemma tool_calls_discard_capture_witness :
  let E := Sample.calling_tools in
  let s := initial_turn E (Some Sample.panel) [] in
  let s' := tool_round E s (stream_loop Sample.tool_response) in
  loop_toolCalls (stream_loop Sample.tool_response) <> []
  /\ mermaidDiagram (stream_loop Sample.tool_response)
     = "```mermaid" +:+ LF +:+ "graph TD" +:+ LF +:+ "```"
  /\ after_response E 1 s Sample.tool_response = Some (Recurse s')
  /\ currentPanel s' = Some Sample.panel
  /\ outputChannel s' = outputChannel s
  /\ retries s' = 0.
Proof.
  intros E s s'.
  destruct (tool_calls_discard_capture E 1 s Sample.tool_response
              ltac:(discriminate)) as (H1 & H2 & H3 & H4 & _).
  split; [discriminate|]. split; [reflexivity|]. auto.
Defined.



(** ** Validation failures *)

Lemma instructions_differ : keyword_instruction <> nesting_instruction.
Proof. discriminate. Qed.

(** The messages the parse-error handling leaves. *)
Lemma handle_parse_error_messages s raw error :
  messages (turn_of (handle_parse_error s raw error))
  = messages s
    ++ (if (retries s =? 0)%nat
        then [UserMessage (if Str.includes raw "mermaid"
                           then nesting_instruction else keyword_instruction)]
        else [])
    ++ (if (retries s <? 3)%nat then [UserMessage (fix_request error raw)] else []).
Proof.
  unfold handle_parse_error, addNestingContext.
  destruct (retries s) as [|[|[|[|n]]]]; cbn;
    destruct (Str.includes raw "mermaid"); cbn;
    rewrite ?app_nil_r, <- ?app_assoc; reflexivity.
Qed.

(** C6, as stated, fails on a diagram text that lacks the keyword after
    its opening fence but has the word elsewhere: on the first failure of
    the turn the instruction about nested definitions is injected, not the
    one about the missing keyword. *)
Lemma keyword_instruction_counterexample :
  let E := Sample.untagged_diagram in
  let s := initial_turn E None [] in
  keyword_after_opening_fence Sample.untagged = false
  /\ retries s = 0
  /\ exists s',
       activation E 1 s = Some (Recurse s')
       /\ retries s' = 1
       /\ messages s'
          = messages s
            ++ [UserMessage nesting_instruction;
                UserMessage (fix_request extra_fence_error Sample.untagged)]
       /\ nesting_instruction <> keyword_instruction.
Proof.
  split; [reflexivity|]. split; [reflexivity|].
  eexists. split; [vm_compute; reflexivity|].
  split; [reflexivity|]. split; [reflexivity | discriminate].
Qed.

(** C6, amended: when a validation fails, the loop injects one
    corrective instruction if and only if the retry counter was 0, that is
    on the first failure of the turn: the instruction about the missing
    keyword when the raw diagram text does not contain the word mermaid
    anywhere, the instruction about nested definitions otherwise; on a
    later failure neither is injected.  (The request to fix the error
    follows while the counter is below 3; the counter starts at 0 and an
    activation raises it only when a validation fails.) *)
Theorem corrective_instruction_once (E : Env) (pollFuel : nat) (s : Turn)
    (raw error : string) (s1 : Turn) :
  FailedValidation E pollFuel s raw error s1 ->
  exists o,
    activation E pollFuel s = Some o
    /\ retries (turn_of o) = S (retries s)
    /\ messages (turn_of o)
       = messages s
         ++ (if (retries s =? 0)%nat
             then [UserMessage (if Str.includes raw "mermaid"
                                then nesting_instruction else keyword_instruction)]
             else [])
         ++ (if (retries s <? 3)%nat
             then [UserMessage (fix_request error raw)] else [])
    /\ keyword_instruction <> nesting_instruction
    /\ (forall s' o',
          activation E pollFuel s' = Some o' ->
          retries (turn_of o') = retries s'
          \/ exists raw' error' s1', FailedValidation E pollFuel s' raw' error' s1').
Proof.
  intros (Hact & Hr & Hm)%FailedValidation_activation.
  exists (handle_parse_error s1 raw error). split; [exact Hact|].
  destruct (handle_parse_error_frame s1 raw error) as (-> & _).
  rewrite handle_parse_error_messages, Hr, Hm.
  split; [done|]. split; [done|]. split; [apply instructions_differ|].
  intros s' o' (_ & _ & [Heq|(raw' & error' & s1' & Hf & _)])%activation_step;
    [by left | right; eauto].
Qed.

(** In the sample turn the first validation fails. *)
Lemma sample_first_failure :
  exists s1,
    FailedValidation Sample.always_failing 1
      (initial_turn Sample.always_failing None [])
      ("```mermaid" +:+ LF +:+ "d0" +:+ LF +:+ "```") "unexpected token" s1.
Proof.
  eexists. split; [reflexivity|]. eexists _, _.
  split; [reflexivity|]. split; [reflexivity|]. split; [reflexivity|].
  vm_compute. reflexivity.
Qed.

Lemma corrective_instruction_once_witness :
  let E := Sample.always_failing in
  let s := initial_turn E None [] in
  let raw := "```mermaid" +:+ LF +:+ "d0" +:+ LF +:+ "```" in
  exists s1,
    FailedValidation E 1 s raw "unexpected token" s1
    /\ exists o,
         activation E 1 s = Some o
         /\ retries (turn_of o) = 1
         /\ messages (turn_of o)
            = messages s
              ++ [UserMessage nesting_instruction;
                  UserMessage (fix_request "unexpected token" raw)]
         /\ keyword_instruction <> nesting_instruction.
Proof.
  intros E s raw. destruct sample_first_failure as (s1 & H).
  exists s1. split; [exact H|].
  destruct (corrective_instruction_once E 1 s raw "unexpected token" s1 H)
    as (o & Hact & Hr & Hm & Hne & _).
  exists o. auto.
Defined.








(** ** The scenarios of the specification, run *)

(** A prose line, a fenced diagram, no tool call, an accepting validator:
    the diagram [A-->B] is accepted at the first validation. *)
Example scenario_accepted :
  exists final panel,
    chatRequestHandler Sample.accepting_scenario 2 1 None [] = Some (Return final)
    /\ retries final = 0
    /\ lm_requests final = 1
    /\ stream final
       = [reference "file:///a.ts"; markdown "Here is ";
          markdown ("a result:" +:+ LF); progress capturing_notice;
          progress "Validating mermaid diagram";
          button "mermAId.openMarkdownFile" "A-->B"]
    /\ currentPanel final = Some panel
    /\ diagram panel = {| content := "A-->B" |}
    /\ last (webview_html panel) = Some (HtmlForWebview {| content := "A-->B" |}).
Proof. eexists _, _. vm_compute. repeat split. Qed.

(** The first validation fails, the second succeeds: one request to fix
    the error is injected and the turn ends accepted. *)
Example scenario_one_retry :
  exists final,
    chatRequestHandler Sample.failing_once 2 2 None [] = Some (Return final)
    /\ retries final = 1
    /\ lm_requests final = 2
    /\ messages final
       = [UserMessage "draw the classes"; UserMessage nesting_instruction;
          UserMessage (fix_request "unexpected token"
                         ("```mermaid" +:+ LF +:+ "d0" +:+ LF +:+ "```"))]
    /\ last (stream final) = Some (button "mermAId.openMarkdownFile" "d1").
Proof. eexists. vm_compute. repeat split. Qed.

(** While the webview has not answered, the validation is pending. *)
Example scenario_pending :
  chatRequestHandler Sample.accepting_scenario 1 1 None [] = None.
Proof. reflexivity. Qed.

(** * Further properties of the code *)

(** ** The stream loop, continued *)

Lemma appended_snoc chunks v : appended (chunks ++ [v]) = appended chunks +:+ v.
Proof.
  induction chunks as [|c chunks IH]; cbn.
  - apply append_nil_r.
  - unfold appended in IH. by rewrite IH, append_assoc.
Qed.

Lemma loop_body_toolCalls st part :
  loop_toolCalls (loop_body st part)
  = loop_toolCalls st ++ option_list (tool_call_of part).
Proof.
  unfold loop_body. destruct part as [v|call|[v|]|]; cbn.
  - destruct (negb _ && _); cbn;
      [|destruct (isMermaidDiagramStreamingIn st); cbn]; by rewrite app_nil_r.
  - done.
  - destruct (String.eqb v ""); cbn; [by rewrite app_nil_r|].
    destruct (negb _ && _); cbn;
      [|destruct (isMermaidDiagramStreamingIn st); cbn]; by rewrite app_nil_r.
  - by rewrite app_nil_r.
  - by rewrite app_nil_r.
Qed.

(** X1: the tool calls of a response are collected in the order of the
    stream, whatever the capture state and whatever text surrounds them. *)
Theorem tool_calls_in_stream_order (parts : list ResponsePart) :
  loop_toolCalls (stream_loop parts) = omap tool_call_of parts.
Proof.
  unfold stream_loop.
  assert (forall st,
            loop_toolCalls (fold_left loop_body parts st)
            = loop_toolCalls st ++ omap tool_call_of parts) as H.
  { induction parts as [|part parts IH]; intros st; cbn [fold_left].
    - by rewrite app_nil_r.
    - rewrite IH, loop_body_toolCalls, <- app_assoc. f_equal.
      cbn. by destruct (tool_call_of part). }
  by rewrite H.
Qed.

Lemma loop_body_prose_invariant st part :
  responseStr st = appended (prose_sink (emitted st)) ->
  responseStr (loop_body st part)
  = appended (prose_sink (emitted (loop_body st part))).
Proof.
  intros Hinv.
  destruct (text_value part) as [v|] eqn:Hv.
  - unfold loop_body. rewrite (adapt_text part v Hv).
    destruct (negb _ && _) eqn:Htrig; cbn.
    + by rewrite Hinv, prose_sink_app, app_nil_r.
    + destruct (isMermaidDiagramStreamingIn st); cbn; [done|].
      rewrite Hinv, prose_sink_app.
      change (prose_sink [markdown v]) with [v]. symmetry. apply appended_snoc.
  - unfold loop_body, text_value in *.
    destruct (adapt part); try discriminate; done.
Qed.

(** X2: the text recorded as the response of a round is exactly what
    the chat stream received as prose, chunk after chunk. *)
Theorem response_is_prose_shown (parts : list ResponsePart) :
  responseStr (stream_loop parts)
  = appended (prose_sink (emitted (stream_loop parts))).
Proof.
  unfold stream_loop.
  assert (forall st,
            responseStr st = appended (prose_sink (emitted st)) ->
            responseStr (fold_left loop_body parts st)
            = appended (prose_sink (emitted (fold_left loop_body parts st)))) as H.
  { induction parts as [|part parts IH]; intros st Hst; cbn [fold_left]; [done|].
    by apply IH, loop_body_prose_invariant. }
  by apply H.
Qed.

Lemma includes_app_l a b t :
  Str.includes a t = true -> Str.includes (a +:+ b) t = true.
Proof.
  intros (pre & post & ->)%includes_Contains. apply includes_Contains.
  exists pre, (post +:+ b). by rewrite !append_assoc.
Qed.

Lemma capturing_notices_app a b :
  capturing_notices (a ++ b) = capturing_notices a ++ capturing_notices b.
Proof. apply List.filter_app. Qed.

Lemma has_marker_cons part parts :
  has_marker (part :: parts)
  = match text_value part with
    | Some v => Str.includes v fence_open_marker || has_marker parts
    | None => has_marker parts
    end.
Proof.
  unfold has_marker. rewrite text_values_cons. by destruct (text_value part).
Qed.

(** Once capturing, the loop stays capturing, says nothing more about it
    and keeps the marker in the buffer. *)
Lemma fold_capturing parts st :
  isMermaidDiagramStreamingIn st = true ->
  isMermaidDiagramStreamingIn (fold_left loop_body parts st) = true
  /\ (Str.includes (mermaidDiagram st) fence_open_marker = true ->
      Str.includes (mermaidDiagram (fold_left loop_body parts st)) fence_open_marker
      = true).
Proof.
  revert st. induction parts as [|part parts IH]; intros st Hs; cbn [fold_left];
    [done|].
  destruct (text_value part) as [v|] eqn:Hv.
  - destruct (loop_body_capture st part v Hv Hs) as (Hs1 & Hd1 & _).
    destruct (IH _ Hs1) as (Hs2 & Hd2). split; [done|].
    intros Hm. apply Hd2. rewrite Hd1. by apply includes_app_l.
  - destruct (loop_body_other st part Hv) as (Hs1 & Hd1 & _).
    rewrite <- Hs1 in Hs. destruct (IH _ Hs) as (Hs2 & Hd2). split; [done|].
    intros Hm. apply Hd2. by rewrite Hd1.
Qed.

Lemma fold_capture_state parts st :
  isMermaidDiagramStreamingIn st = false ->
  mermaidDiagram st = "" ->
  isMermaidDiagramStreamingIn (fold_left loop_body parts st) = has_marker parts
  /\ capturing_notices (emitted (fold_left loop_body parts st))
     = capturing_notices (emitted st)
       ++ (if has_marker parts then [progress capturing_notice] else [])
  /\ (if has_marker parts
      then Str.includes (mermaidDiagram (fold_left loop_body parts st))
             fence_open_marker = true
      else mermaidDiagram (fold_left loop_body parts st) = "").
Proof.
  revert st. induction parts as [|part parts IH]; intros st Hs Hd; cbn [fold_left].
  - cbn. by rewrite app_nil_r.
  - rewrite has_marker_cons. destruct (text_value part) as [v|] eqn:Hv.
    + destruct (Str.includes v fence_open_marker) eqn:Hm; cbn [orb].
      * destruct (loop_body_trigger st part v Hv Hs Hm) as (Hs1 & Hd1 & He1).
        destruct (fold_capturing parts _ Hs1) as (Hs2 & Hd2).
        split; [done|]. split.
        -- rewrite (proj2 (loop_keeps_capturing parts _ Hs1)), He1.
           by rewrite capturing_notices_app.
        -- apply Hd2. rewrite Hd1, Hd. exact Hm.
      * destruct (loop_body_prose st part v Hv Hs Hm) as (Hs1 & Hd1 & He1).
        destruct (IH (loop_body st part) Hs1) as (Hs2 & He2 & Hd2);
          [by rewrite Hd1|].
        rewrite Hs2, He2, He1, capturing_notices_app. cbn [capturing_notices List.filter].
        by rewrite app_nil_r.
    + destruct (loop_body_other st part Hv) as (Hs1 & Hd1 & He1).
      rewrite <- Hs1 in Hs. rewrite <- Hd1 in Hd.
      destruct (IH (loop_body st part) Hs Hd) as (Hs2 & He2 & Hd2).
      by rewrite Hs2, He2, He1.
Qed.

(** X3: at the end of the stream the loop is capturing exactly when some
    text chunk contained two consecutive backticks; then the capture was
    announced once and the buffer contains the marker; otherwise it was
    never announced and the buffer is empty. *)
Theorem capture_state (parts : list ResponsePart) :
  isMermaidDiagramStreamingIn (stream_loop parts) = has_marker parts
  /\ capturing_notices (emitted (stream_loop parts))
     = (if has_marker parts then [progress capturing_notice] else [])
  /\ (if has_marker parts
      then Str.Contains (mermaidDiagram (stream_loop parts)) fence_open_marker
      else mermaidDiagram (stream_loop parts) = "").
Proof.
  destruct (fold_capture_state parts loop_init eq_refl eq_refl) as (Hs & He & Hd).
  unfold stream_loop. split; [done|]. split; [done|].
  destruct (has_marker parts); [by apply includes_Contains | done].
Qed.

Lemma loop_body_essential st part :
  loop_body st part
  = match essential part with
    | Some part' => loop_body st part'
    | None => st
    end.
Proof.
  unfold essential, loop_body.
  destruct part as [v|call|[v|]|]; cbn; try done.
  destruct (String.eqb v ""); done.
Qed.

(** X4: the loop sees a response only through its text and tool-call
    parts: a Groq chunk with a non-empty delta counts as the text part of
    that delta, and a chunk without content, with an empty delta or of an
    unknown kind can be removed from the stream without any effect. *)
Theorem stream_loop_essential (parts : list ResponsePart) :
  stream_loop parts = stream_loop (omap essential parts)
  /\ (forall v, v <> "" -> essential (GroqChunk (Some v)) = Some (TextPart v))
  /\ essential (GroqChunk (Some "")) = None
  /\ essential (GroqChunk None) = None
  /\ essential OtherPart = None.
Proof.
  split.
  - unfold stream_loop. generalize loop_init.
    induction parts as [|part parts IH]; intros st; cbn [fold_left omap]; [done|].
    rewrite loop_body_essential. cbn.
    destruct (essential part) as [part'|] eqn:He; cbn [fold_left].
    + by rewrite IH.
    + apply IH.
  - repeat split. intros v Hv. unfold essential. cbn.
    apply String.eqb_neq in Hv. by rewrite Hv.
Qed.

(** ** [Diagram], continued *)

Lemma length_app a b :
  String.length (a +:+ b) = String.length a + String.length b.
Proof.
  induction a as [|c a IH]; [done|].
  change (S (String.length (a +:+ b)) = S (String.length a) + String.length b).
  by rewrite IH.
Qed.

Lemma drop_app a b : Str.drop (String.length a) (a +:+ b) = b.
Proof. induction a as [|c a IH]; [by destruct b | exact IH]. Qed.

Lemma take_app a b : Str.take (String.length a) (a +:+ b) = a.
Proof.
  induction a as [|c a IH]; [by destruct b|].
  change (String c (Str.take (String.length a) (a +:+ b)) = String c a).
  by rewrite IH.
Qed.

Lemma take_drop n s : Str.take n s +:+ Str.drop n s = s.
Proof.
  revert s. induction n as [|n IH]; intros [|c s]; try done.
  change (String c (Str.take n s +:+ Str.drop n s) = String c s). by rewrite IH.
Qed.

Lemma startsWith_self p s : Str.startsWith (p +:+ s) p = true.
Proof. apply startsWith_app. by exists s. Qed.

(** [endsWith] decides "ends with". *)
Lemma endsWith_app s p : Str.endsWith s p = true <-> exists pre, s = pre +:+ p.
Proof.
  unfold Str.endsWith. rewrite andb_true_iff, Nat.leb_le, String.eqb_eq. split.
  - intros [_ Hd]. exists (Str.take (String.length s - String.length p) s).
    pose proof (take_drop (String.length s - String.length p) s) as H.
    rewrite Hd in H. by symmetry.
  - intros [pre ->]. rewrite length_app. split; [lia|].
    replace (String.length pre + String.length p - String.length p)
      with (String.length pre) by lia.
    apply drop_app.
Qed.

Lemma replace_leading_app p s : Str.replace_leading p (p +:+ s) = s.
Proof. unfold Str.replace_leading. rewrite startsWith_self. apply drop_app. Qed.

Lemma replace_trailing_app p s : Str.replace_trailing p (s +:+ p) = s.
Proof.
  unfold Str.replace_trailing.
  rewrite (proj2 (endsWith_app (s +:+ p) p)) by (by exists s).
  rewrite length_app.
  replace (String.length s + String.length p - String.length p)
    with (String.length s) by lia.
  apply take_app.
Qed.

(** X5: a text that is the opening fence with the language tag, a body
    and the closing fence normalizes to the trimmed body, whatever the
    body holds. *)
Theorem normalize_fenced (body : string) :
  normalize (fence_mermaid +:+ body +:+ fence) = Str.trim body.
Proof.
  unfold normalize. by rewrite replace_leading_app, replace_trailing_app.
Qed.

Lemma trimEnd_app a b :
  Str.trimEnd (a +:+ b)
  = match Str.trimEnd b with
    | "" => Str.trimEnd a
    | _ => a +:+ Str.trimEnd b
    end.
Proof.
  induction a as [|c a IH].
  - change ("" +:+ b) with b. by destruct (Str.trimEnd b).
  - change (String c a +:+ b) with (String c (a +:+ b)).
    cbn [Str.trimEnd]. rewrite IH.
    destruct (Str.trimEnd b) as [|x y]; [done|].
    by destruct a.
Qed.

Lemma trimStart_suffix s : exists a, s = a +:+ Str.trimStart s.
Proof.
  induction s as [|c s [a IH]]; [by exists ""|]. cbn.
  destruct (Str.isWhiteSpace c).
  - exists (String c a). by rewrite IH at 1.
  - by exists "".
Qed.

Lemma trimEnd_prefix s : exists b, s = Str.trimEnd s +:+ b.
Proof.
  induction s as [|c s [b IH]]; [by exists ""|]. cbn.
  destruct (Str.trimEnd s) as [|x y].
  - destruct (Str.isWhiteSpace c).
    + by exists (String c s).
    + exists s. done.
  - exists b. by rewrite IH at 1.
Qed.

(** The trimmed string is a piece of the string. *)
Lemma trim_substring s : exists a b, s = a +:+ Str.trim s +:+ b.
Proof.
  destruct (trimStart_suffix s) as [a Ha].
  destruct (trimEnd_prefix (Str.trimStart s)) as [b Hb].
  exists a, b. unfold Str.trim. by rewrite <- Hb.
Qed.

Lemma Contains_trim_inv s t : Str.Contains (Str.trim s) t -> Str.Contains s t.
Proof.
  intros (pre & post & Ht). destruct (trim_substring s) as (a & b & ->).
  exists (a +:+ pre), (post +:+ b). rewrite Ht. by rewrite !append_assoc.
Qed.

(** Trimming keeps an occurrence of a text that neither starts nor ends
    with white space. *)
Lemma Contains_trim s t :
  t <> "" -> head_trimmed t = true -> Str.trimEnd t = t ->
  Str.Contains s t -> Str.Contains (Str.trim s) t.
Proof.
  intros Hne Hhead Hend (pre & post & ->). unfold Str.trim.
  assert (exists pre', Str.trimStart (pre +:+ t +:+ post) = pre' +:+ t +:+ post)
    as [pre' ->].
  { induction pre as [|c pre IH].
    - exists "". change ("" +:+ t +:+ post) with (t +:+ post).
      destruct t as [|x t]; [done|]. cbn in Hhead |- *.
      apply negb_true_iff in Hhead.
      change (String x t +:+ post) with (String x (t +:+ post)).
      cbn. by rewrite Hhead.
    - change (String c pre +:+ t +:+ post) with (String c (pre +:+ t +:+ post)).
      cbn. destruct (Str.isWhiteSpace c); [exact IH|]. by exists (String c pre). }
  assert (exists post', Str.trimEnd (t +:+ post) = t +:+ post') as [post' Hpost].
  { rewrite trimEnd_app. destruct (Str.trimEnd post) as [|x y].
    - exists "". by rewrite Hend, append_nil_r.
    - by eexists. }
  rewrite trimEnd_app, Hpost.
  destruct (t +:+ post') as [|x y] eqn:Hx.
  - by destruct t.
  - exists pre', post'. by rewrite Hx.
Qed.

Lemma trimStart_idem s : Str.trimStart (Str.trimStart s) = Str.trimStart s.
Proof. apply trimStart_fixed, trimStart_head. Qed.

(** X6: the content of a [Diagram] is never longer than the raw text and
    carries no white space at either end. *)
Theorem normalize_trimmed (raw : string) :
  String.length (content (newDiagram raw)) <= String.length raw
  /\ Str.trimStart (content (newDiagram raw)) = content (newDiagram raw)
  /\ Str.trimEnd (content (newDiagram raw)) = content (newDiagram raw).
Proof.
  cbn [content newDiagram]. unfold normalize.
  set (z := Str.replace_trailing fence (Str.replace_leading fence_mermaid raw)).
  split; [|split].
  - pose proof (length_trim z) as Ht.
    pose proof (length_replace_trailing fence
                  (Str.replace_leading fence_mermaid raw)) as Hz.
    pose proof (length_replace_leading fence_mermaid raw) as Hy.
    fold z in Hz.
    destruct (Str.endsWith _ fence), (Str.startsWith raw fence_mermaid); lia.
  - apply trimStart_fixed. unfold Str.trim. apply trimEnd_head, trimStart_head.
  - unfold Str.trim. apply trimEnd_idem.
Qed.

Lemma startsWith_Contains s p : Str.startsWith s p = true -> Str.Contains s p.
Proof. intros [post ->]%startsWith_app. by exists "", post. Qed.

Lemma endsWith_Contains s p : Str.endsWith s p = true -> Str.Contains s p.
Proof.
  intros [pre ->]%endsWith_app. exists pre, "". by rewrite append_nil_r.
Qed.

(** X7: a raw text without any fence is only trimmed, and its content
    has no fence either, so the validation never refuses it for a fence. *)
Theorem normalize_without_fence (raw : string) :
  ~ Str.Contains raw fence ->
  content (newDiagram raw) = Str.trim raw
  /\ Str.includes (content (newDiagram raw)) fence = false.
Proof.
  intros Hno. cbn [content newDiagram].
  assert (normalize raw = Str.trim raw) as ->.
  { apply normalize_fenceless; apply not_true_is_false; intros H; apply Hno.
    - apply startsWith_Contains in H as (pre & post & ->).
      exists pre, ("mermaid" +:+ post).
      change fence_mermaid with (fence +:+ "mermaid"). by rewrite !append_assoc.
    - by apply endsWith_Contains. }
  split; [done|]. apply not_true_is_false.
  intros Hc%includes_Contains. by apply Hno, Contains_trim_inv.
Qed.

Lemma normalize_without_fence_witness :
  ~ Str.Contains ("  graph TD" +:+ LF) fence
  /\ content (newDiagram ("  graph TD" +:+ LF)) = "graph TD"
  /\ Str.includes (content (newDiagram ("  graph TD" +:+ LF))) fence = false.
Proof.
  assert (~ Str.Contains ("  graph TD" +:+ LF) fence) as H.
  { intros Hc%includes_Contains. vm_compute in Hc. discriminate. }
  split; [exact H|]. exact (normalize_without_fence _ H).
Defined.

Lemma last_char_app a b : b <> "" -> last_char (a +:+ b) = last_char b.
Proof.
  intros Hb. induction a as [|c a IH]; [done|].
  change (String c a +:+ b) with (String c (a +:+ b)). cbn [last_char].
  destruct (a +:+ b) eqn:Hab; [|exact IH].
  destruct a, b; done.
Qed.

Lemma whitespace_only_last ws :
  ws <> "" -> whitespace_only ws = true ->
  exists c, last_char ws = Some c /\ Str.isWhiteSpace c = true.
Proof.
  induction ws as [|c ws IH]; [done|]. intros _ [Hc Hws]%andb_true_iff.
  destruct ws as [|d ws]; [by exists c|].
  destruct IH as (x & Hx & Hwx); [done | done |]. by exists x.
Qed.

(** The fence check of [_validate], as [createOrShow] reaches it. *)
Lemma createOrShow_fence E pollFuel time current log d :
  Str.includes (content d) fence = true ->
  exists st',
    createOrShow E pollFuel time current log d
    = Some (Failure extra_fence_error, st').
Proof.
  intros Hc. destruct current as [this|]; unfold createOrShow, _validate;
    cbn [_diagram]; rewrite indexOf_includes, Hc; eauto.
Qed.

(** X8: when white space (a line break, say) follows the closing fence
    of the raw text, the closing fence is not stripped: it stays in the
    content, and the validation refuses the diagram for it, whatever the
    body and the panel are. *)
Theorem trailing_whitespace_rejected (E : Env) (pollFuel time : nat)
    (current : option DiagramEditorPanel) (log : list string) (body ws : string) :
  ws <> "" -> whitespace_only ws = true ->
  Str.Contains (content (newDiagram (fence_mermaid +:+ body +:+ fence +:+ ws))) fence
  /\ exists st',
       createOrShow E pollFuel time current log
         (newDiagram (fence_mermaid +:+ body +:+ fence +:+ ws))
       = Some (Failure extra_fence_error, st').
Proof.
  intros Hne Hws.
  assert (Str.Contains
            (content (newDiagram (fence_mermaid +:+ body +:+ fence +:+ ws))) fence)
    as Hc.
  { cbn [content newDiagram]. unfold normalize. rewrite replace_leading_app.
    assert (Str.endsWith (body +:+ fence +:+ ws) fence = false) as Hend.
    { apply not_true_is_false. intros [pre Heq]%endsWith_app.
      apply (f_equal last_char) in Heq.
      rewrite <- append_assoc, !last_char_app in Heq by done.
      destruct (whitespace_only_last ws Hne Hws) as (c & Hc & Hwc).
      rewrite Hc in Heq. injection Heq as ->. discriminate. }
    unfold Str.replace_trailing. rewrite Hend.
    apply Contains_trim; [done..|]. by exists body, ws. }
  split; [exact Hc|]. by apply createOrShow_fence, includes_Contains.
Qed.

Lemma trailing_whitespace_rejected_witness :
  LF <> "" /\ whitespace_only LF = true
  /\ Str.Contains
       (content (newDiagram (fence_mermaid +:+ (LF +:+ "graph TD" +:+ LF) +:+ fence +:+ LF)))
       fence
  /\ exists st',
       createOrShow Sample.always_failing 0 0 (Some Sample.panel) []
         (newDiagram (fence_mermaid +:+ (LF +:+ "graph TD" +:+ LF) +:+ fence +:+ LF))
       = Some (Failure extra_fence_error, st').
Proof.
  split; [discriminate|]. split; [reflexivity|].
  exact (trailing_whitespace_rejected Sample.always_failing 0 0 (Some Sample.panel)
           [] (LF +:+ "graph TD" +:+ LF) LF ltac:(discriminate) eq_refl).
Defined.

(** X9: when the raw text opens with a fence that the language tag does
    not follow and closes with a fence, only the closing fence is
    stripped: the opening one stays in the content, and the validation
    refuses the diagram for it. *)
Theorem untagged_fence_rejected (E : Env) (pollFuel time : nat)
    (current : option DiagramEditorPanel) (log : list string) (body : string) :
  Str.startsWith (fence +:+ body +:+ fence) fence_mermaid = false ->
  content (newDiagram (fence +:+ body +:+ fence)) = Str.trim (fence +:+ body)
  /\ exists st',
       createOrShow E pollFuel time current log (newDiagram (fence +:+ body +:+ fence))
       = Some (Failure extra_fence_error, st').
Proof.
  intros Htag.
  assert (content (newDiagram (fence +:+ body +:+ fence)) = Str.trim (fence +:+ body))
    as Hc.
  { cbn [content newDiagram]. unfold normalize, Str.replace_leading.
    by rewrite Htag, <- append_assoc, replace_trailing_app. }
  split; [exact Hc|]. apply createOrShow_fence, includes_Contains. rewrite Hc.
  apply Contains_trim; [done..|]. by exists "", body.
Qed.

Lemma untagged_fence_rejected_witness :
  let body := LF +:+ "graph TD" +:+ LF in
  Str.startsWith (fence +:+ body +:+ fence) fence_mermaid = false
  /\ content (newDiagram (fence +:+ body +:+ fence)) = "```" +:+ LF +:+ "graph TD"
  /\ exists st',
       createOrShow Sample.always_failing 0 0 None [] (newDiagram (fence +:+ body +:+ fence))
       = Some (Failure extra_fence_error, st').
Proof.
  intros body. split; [reflexivity|].
  exact (untagged_fence_rejected Sample.always_failing 0 0 None [] body eq_refl).
Defined.

(** ** The panel, continued *)

Lemma onDidReceiveMessage_log E msgs st :
  snd (fold_left (onDidReceiveMessage E) msgs st)
  = snd st
    ++ map (fun m => "(Chat) Parse Result: " +:+ JSON_stringify E m) msgs.
Proof.
  revert st. induction msgs as [|m msgs IH]; intros st; cbn [fold_left map].
  - by rewrite app_nil_r.
  - rewrite IH. destruct st as [this log]. cbn. by rewrite <- app_assoc.
Qed.

(** Polling only appends to the recorded parse results and to the log. *)
Lemma poll_grows E posts nonce fuel tick st pd st' :
  poll E posts nonce fuel tick st = Some (pd, st') ->
  parseDetails (fst st) `prefix_of` parseDetails (fst st')
  /\ snd st `prefix_of` snd st'.
Proof.
  revert tick st. induction fuel as [|fuel IH]; intros tick st; cbn [poll];
    [discriminate|].
  assert (parseDetails (fst st)
            `prefix_of` parseDetails (fst (fold_left (onDidReceiveMessage E)
                                             (posts tick) st))
          /\ snd st `prefix_of` snd (fold_left (onDidReceiveMessage E)
                                       (posts tick) st)) as [H1 H2].
  { rewrite onDidReceiveMessage_records, onDidReceiveMessage_log.
    split; by apply prefix_app_r. }
  destruct (find _ _).
  - by intros [= _ <-].
  - intros [H3 H4]%IH. split; by etrans.
Qed.

(** The panel [createOrShow] validates on: the current one with the
    candidate for diagram, or a new one. *)
Lemma createOrShow_cases E pollFuel time current log d result this' log' :
  createOrShow E pollFuel time current log d = Some (result, (this', log')) ->
  let recorded := match current with Some this => parseDetails this | None => [] end in
  let documents := match current with Some this => webview_html this | None => [] end in
  let log0 :=
    log ++ [match current with
            | Some _ => "Revealing existing panel"
            | None => "Creating new panel"
            end] in
  let doc := HtmlToValidateMermaid d (pretty (getTime E time)) in
  (Str.includes (content d) fence = true
   /\ result = Failure extra_fence_error
   /\ this' = {| _diagram := d; parseDetails := recorded; webview_html := documents |}
   /\ log' = log0)
  \/ (Str.includes (content d) fence = false
      /\ exists pd this2,
           poll E (webview_posts E doc) (pretty (getTime E time)) pollFuel 0
             ({| _diagram := d; parseDetails := recorded;
                 webview_html := documents ++ [doc] |}, log0)
           = Some (pd, (this2, log'))
           /\ result = outcome_of pd
           /\ this'
              = match pd with
                | ParseSuccess _ =>
                    {| _diagram := _diagram this2;
                       parseDetails := parseDetails this2;
                       webview_html :=
                         webview_html this2 ++ [HtmlForWebview (_diagram this2)] |}
                | ParseFailure _ _ _ => this2
                end).
Proof.
  intros H recorded documents log0 doc.
  assert (_validate E pollFuel time
            ({| _diagram := d; parseDetails := recorded; webview_html := documents |},
             log0) None
          = Some (result, (this', log'))) as Hv.
  { rewrite <- H. by destruct current. }
  clear H. unfold _validate in Hv. cbn [_diagram parseDetails webview_html] in Hv.
  rewrite indexOf_includes in Hv.
  destruct (Str.includes (content d) fence).
  - left. by injection Hv as <- <- <-.
  - right. split; [done|]. fold doc in Hv.
    destruct (poll E _ _ pollFuel 0 _) as [[pd [this2 log2]]|]; [|discriminate].
    exists pd, this2. by destruct pd; injection Hv as <- <- <-.
Qed.

(** X10: a validation never forgets: the parse results recorded by the
    panel, the documents given to its webview and the output channel are
    extended, never shortened or rewritten. *)
Theorem createOrShow_append_only (E : Env) (pollFuel time : nat)
    (this : DiagramEditorPanel) (log : list string) (d : Diagram)
    (result : ValidateResult) (this' : DiagramEditorPanel) (log' : list string) :
  createOrShow E pollFuel time (Some this) log d = Some (result, (this', log')) ->
  parseDetails this `prefix_of` parseDetails this'
  /\ webview_html this `prefix_of` webview_html this'
  /\ log `prefix_of` log'.
Proof.
  intros [(_ & _ & -> & ->)|(_ & pd & this2 & Hp & _ & ->)]%createOrShow_cases.
  - cbn. split; [done|]. split; [done|]. by apply prefix_app_r.
  - destruct (poll_grows _ _ _ _ _ _ _ _ Hp) as [Hpd Hlog].
    destruct (poll_diagram _ _ _ _ _ _ _ _ Hp) as [_ Hhtml]. cbn in Hpd, Hlog, Hhtml.
    assert (log `prefix_of` log') as Hl.
    { etrans; [|exact Hlog]. by apply prefix_app_r. }
    destruct pd; cbn; rewrite ?Hhtml; repeat split; try done;
      rewrite <- ?app_assoc; by apply prefix_app_r.
Qed.

Lemma createOrShow_append_only_witness :
  exists this' log',
    createOrShow Sample.always_failing 1 1 (Some Sample.panel) ["earlier"]
      {| content := "graph XX" |}
    = Some (Failure "unexpected token", (this', log'))
    /\ parseDetails Sample.panel `prefix_of` parseDetails this'
    /\ webview_html Sample.panel `prefix_of` webview_html this'
    /\ ["earlier"] `prefix_of` log'.
Proof.
  eexists _, _.
  refine ((fun H => conj H (createOrShow_append_only Sample.always_failing 1 1
                              Sample.panel ["earlier"] {| content := "graph XX" |}
                              _ _ _ H)) _).
  vm_compute. reflexivity.
Defined.

Lemma find_app_l {A} (f : A -> bool) l1 l2 x :
  find f l1 = Some x -> find f (l1 ++ l2) = Some x.
Proof.
  induction l1 as [|a l1 IH]; cbn; [discriminate|]. by destruct (f a).
Qed.

(** X11: the recorded parse results are never cleared, so a validation
    whose nonce is already recorded (the clock read the same millisecond
    as for an earlier validation) is answered from the old result at the
    first firing of the interval, whatever the webview reports for the new
    candidate. *)
Theorem stale_result_answers (E : Env) (pollFuel time : nat)
    (this : DiagramEditorPanel) (log : list string) (d : Diagram)
    (pd : ParseDetails) :
  Str.includes (content d) fence = false ->
  find (fun p => String.eqb (pd_nonce p) (pretty (getTime E time)))
       (parseDetails this) = Some pd ->
  exists st',
    createOrShow E (S pollFuel) time (Some this) log d = Some (outcome_of pd, st').
Proof.
  intros Hfence Hfind. unfold createOrShow, _validate.
  cbn [_diagram parseDetails webview_html]. rewrite indexOf_includes, Hfence.
  cbn [poll]. rewrite onDidReceiveMessage_records. cbn [fst parseDetails].
  rewrite (find_app_l _ _ _ _ Hfind).
  destruct (fold_left _ _ _) as [this2 log2]. destruct pd; eauto.
Qed.

Lemma stale_result_answers_witness :
  let this :=
    {| _diagram := Sample.accepted;
       parseDetails := [ParseSuccess "1700000000002"];
       webview_html := [] |} in
  Str.includes "graph XX" fence = false
  /\ find (fun p => String.eqb (pd_nonce p)
                      (pretty (getTime Sample.always_failing 2)))
          (parseDetails this) = Some (ParseSuccess "1700000000002")
  /\ exists st',
       createOrShow Sample.always_failing 1 2 (Some this) [] {| content := "graph XX" |}
       = Some (Success, st').
Proof.
  intros this. split; [reflexivity|]. split; [vm_compute; reflexivity|].
  exact (stale_result_answers Sample.always_failing 0 2 this []
           {| content := "graph XX" |} (ParseSuccess "1700000000002")
           eq_refl ltac:(vm_compute; reflexivity)).
Defined.

(** X12: whenever [createOrShow] completes, the current panel holds the
    candidate; if the candidate has no fence, the webview was given the
    validation document for it, and the webview is left on the diagram
    page after a success but on the validation document after a failure. *)
Theorem createOrShow_leaves (E : Env) (pollFuel time : nat)
    (current : option DiagramEditorPanel) (log : list string) (d : Diagram)
    (result : ValidateResult) (this' : DiagramEditorPanel) (log' : list string) :
  createOrShow E pollFuel time current log d = Some (result, (this', log')) ->
  diagram this' = d
  /\ (Str.includes (content d) fence = false ->
      In (HtmlToValidateMermaid d (pretty (getTime E time))) (webview_html this')
      /\ last (webview_html this')
         = Some (match result with
                 | Success => HtmlForWebview d
                 | Failure _ => HtmlToValidateMermaid d (pretty (getTime E time))
                 end)).
Proof.
  intros [(Hf & _ & -> & _)|(_ & pd & this2 & Hp & -> & ->)]%createOrShow_cases.
  - split; [done|]. intros Hno. congruence.
  - destruct (poll_diagram _ _ _ _ _ _ _ _ Hp) as [Hd Hhtml]. cbn in Hd, Hhtml.
    unfold diagram.
    destruct pd; cbn; rewrite ?Hd, ?Hhtml; (split; [done|]); intros _;
      rewrite ?last_snoc; (split; [|done]);
      rewrite ?in_app_iff; cbn; auto.
Qed.

Lemma createOrShow_leaves_witness :
  exists this' log',
    createOrShow Sample.accepting_scenario 2 1 (Some Sample.panel) []
      {| content := "A-->B" |}
    = Some (Success, (this', log'))
    /\ diagram this' = {| content := "A-->B" |}
    /\ (Str.includes "A-->B" fence = false ->
        In (HtmlToValidateMermaid {| content := "A-->B" |} "1700000000001")
           (webview_html this')
        /\ last (webview_html this') = Some (HtmlForWebview {| content := "A-->B" |})).
Proof.
  eexists _, _.
  refine ((fun H => conj H (createOrShow_leaves Sample.accepting_scenario 2 1
                              (Some Sample.panel) [] {| content := "A-->B" |}
                              _ _ _ H)) _).
  vm_compute. reflexivity.
Defined.

(** ** The turn, continued *)

Lemma validated_createOrShow E pollFuel s l result s1 :
  validated E pollFuel s l = Some (result, s1) ->
  exists panel,
    createOrShow E pollFuel (lm_requests s) (currentPanel s)
      (outputChannel s ++ [mermaidDiagram l]
       ++ ["~~"; content (newDiagram (mermaidDiagram l)); "~~"])
      (newDiagram (mermaidDiagram l))
    = Some (result, (panel, outputChannel s1))
    /\ currentPanel s1 = Some panel.
Proof.
  unfold validated.
  destruct (createOrShow _ _ _ _ _ _) as [[r [panel log]]|]; [|discriminate].
  intros [= <- <-]. by exists panel.
Qed.

Lemma createOrShow_log_grows E pollFuel time current log d result this' log' :
  createOrShow E pollFuel time current log d = Some (result, (this', log')) ->
  log `prefix_of` log'.
Proof.
  intros [(_ & _ & _ & ->)|(_ & pd & this2 & Hp & _)]%createOrShow_cases.
  - by apply prefix_app_r.
  - destruct (poll_grows _ _ _ _ _ _ _ _ Hp) as [_ Hlog]. cbn in Hlog.
    etrans; [|exact Hlog]. by apply prefix_app_r.
Qed.

Lemma request_response_stream E s parts out :
  request_response E s = inr (parts, out) -> stream s `prefix_of` out.
Proof.
  unfold request_response, callWithGroq.
  destruct (groqEnabled E).
  - destruct (GROQ_API_KEY E) as [[|c k]|]; try discriminate.
    intros [= _ <-]. by apply prefix_app_r.
  - by intros [= _ <-].
Qed.

Lemma handle_parse_error_grows s raw error :
  stream s `prefix_of` stream (turn_of (handle_parse_error s raw error))
  /\ outputChannel s
     `prefix_of` outputChannel (turn_of (handle_parse_error s raw error)).
Proof.
  unfold handle_parse_error. destruct (S (retries s) <? 4)%nat; cbn.
  - split; by apply prefix_app_r.
  - split; [by apply prefix_app_r|]. rewrite <- app_assoc. by apply prefix_app_r.
Qed.

(** What one activation does to the chat stream, the output channel and
    the count of requests. *)
Lemma activation_grows E pollFuel s o :
  activation E pollFuel s = Some o ->
  stream s `prefix_of` stream (turn_of o)
  /\ outputChannel s `prefix_of` outputChannel (turn_of o)
  /\ lm_requests s <= lm_requests (turn_of o) <= S (lm_requests s).
Proof.
  intros [[_ ->]|[_ [(error & _ & ->)|(parts & out & Hresp & H)]]]%activation_cases.
  - cbn. split; [by apply prefix_app_r|]. split; [done | lia].
  - cbn. split; [done|]. split; [done | lia].
  - apply request_response_stream in Hresp.
    apply after_response_cases in H as [[_ ->]|[_ H]].
    + cbn [turn_of].
      destruct (tool_round_spec E (requested s out) (stream_loop parts))
        as (_ & _ & _ & _ & _ & _ & -> & -> & ->). cbn.
      split; [|split; [done | lia]]. etrans; [exact Hresp|]. by apply prefix_app_r.
    + apply validate_round_cases in H as (result & s1 & Hval & ->).
      destruct (validated_frame _ _ _ _ _ _ Hval) as (_ & _ & _ & _ & Hlm & Hst).
      destruct (validated_createOrShow _ _ _ _ _ _ Hval) as (panel & Hc & _).
      apply createOrShow_log_grows in Hc. cbn in Hlm, Hst, Hc.
      assert (stream s `prefix_of` stream s1) as Hs1.
      { rewrite Hst. etrans; [exact Hresp|]. by apply prefix_app_r. }
      assert (outputChannel s `prefix_of` outputChannel s1) as Hl1.
      { etrans; [|exact Hc]. by apply prefix_app_r. }
      destruct result as [|error].
      * cbn. rewrite Hlm. split; [|split; [done | lia]].
        etrans; [exact Hs1|]. by apply prefix_app_r.
      * destruct (handle_parse_error_grows s1 (mermaidDiagram (stream_loop parts))
                    error) as [Hs2 Hl2].
        destruct (handle_parse_error_frame s1 (mermaidDiagram (stream_loop parts))
                    error) as (_ & _ & _ & _ & ->).
        rewrite Hlm. split; [by etrans|]. split; [by etrans | lia].
Qed.

(** X13: nothing shown to the user or written to the output channel is
    ever taken back or reordered: through every activation, and so from
    any state of the turn to any later one, the chat stream and the output
    channel are only extended; and an activation requests at most one
    response. *)
Theorem turn_append_only (E : Env) (pollFuel : nat) :
  (forall s o,
      activation E pollFuel s = Some o ->
      stream s `prefix_of` stream (turn_of o)
      /\ outputChannel s `prefix_of` outputChannel (turn_of o)
      /\ lm_requests s <= lm_requests (turn_of o) <= S (lm_requests s))
  /\ (forall s0 s,
        Reentered E pollFuel s0 s ->
        stream s0 `prefix_of` stream s
        /\ outputChannel s0 `prefix_of` outputChannel s
        /\ lm_requests s0 <= lm_requests s).
Proof.
  split; [apply activation_grows|].
  induction 1 as [|s s' Hre (IH1 & IH2 & IH3) Hact]; [done|].
  apply activation_grows in Hact as (H1 & H2 & H3). cbn [turn_of] in *.
  split; [by etrans|]. split; [by etrans | lia].
Qed.

Lemma turn_append_only_witness :
  let E := Sample.always_failing in
  let s := initial_turn E None ["earlier line"] in
  exists o,
    activation E 1 s = Some o
    /\ stream s `prefix_of` stream (turn_of o)
    /\ outputChannel s `prefix_of` outputChannel (turn_of o)
    /\ lm_requests s <= lm_requests (turn_of o) <= S (lm_requests s).
Proof.
  intros E s.
  destruct (activation E 1 s) as [o|] eqn:Hact.
  - exists o. split; [reflexivity|].
    exact (proj1 (turn_append_only E 1) s o Hact).
  - vm_compute in Hact. discriminate Hact.
Defined.







(** A re-entry is a tool-call round or a retry below the ceiling. *)
Lemma activation_recurse E pollFuel s s' :
  activation E pollFuel s = Some (Recurse s') ->
  (exists parts out,
      request_response E s = inr (parts, out)
      /\ loop_toolCalls (stream_loop parts) <> [])
  \/ (retries s' = S (retries s) /\ retries s < 3).
Proof.
  intros [[_ ?]|[_ [(error & _ & ?)|(parts & out & Hresp & H)]]]%activation_cases;
    try discriminate.
  apply after_response_cases in H as [[Hcalls _]|[_ H]].
  - left. by exists parts, out.
  - right. apply validate_round_cases in H as (result & s1 & Hval & Ho).
    destruct (validated_frame _ _ _ _ _ _ Hval) as (Hr & _).
    destruct result as [|error]; [discriminate|]. symmetry in Ho.
    apply handle_parse_error_recurse in Ho as [-> ?]. cbn in Hr. lia.
Qed.

Lemma activation_retries E pollFuel s o :
  activation E pollFuel s = Some o ->
  retries s <= retries (turn_of o) <= S (retries s).
Proof.
  intros (_ & _ & [->|(raw & error & s1 & Hf & ->)])%activation_step; [lia|].
  destruct (FailedValidation_activation _ _ _ _ _ _ Hf) as (_ & Hr & _).
  destruct (handle_parse_error_frame s1 raw error) as (-> & _). lia.
Qed.

(** Without tool-call rounds, a turn re-entered with the counter [k] short
    of 3 returns within [k + 1] activations. *)
Lemma bounded_run E pollFuel s0 :
  (forall s parts out,
      Reentered E pollFuel s0 s -> request_response E s = inr (parts, out) ->
      loop_toolCalls (stream_loop parts) = []) ->
  (forall s, Reentered E pollFuel s0 s -> activation E pollFuel s <> None) ->
  forall k s,
    Reentered E pollFuel s0 s -> retries s + k = 3 ->
    exists o,
      runWithFunctions E pollFuel (S k) s = Some o
      /\ (forall s', o <> Recurse s')
      /\ lm_requests (turn_of o) <= lm_requests s + S k
      /\ retries (turn_of o) <= 4.
Proof.
  intros Hnotools Hresolves. induction k as [|k IH]; intros s Hre Hk;
    (destruct (activation E pollFuel s) as [o|] eqn:Hact;
     [|by apply Hresolves in Hre]);
    pose proof (activation_grows _ _ _ _ Hact) as (_ & _ & Hlm);
    pose proof (activation_retries _ _ _ _ Hact) as Hr;
    cbn [runWithFunctions]; rewrite Hact;
    destruct o as [s'|s'|error s']; cbn [turn_of] in *;
    try (eexists; split; [reflexivity|]; split; [done|]; split; cbn [turn_of]; lia).
  - apply activation_recurse in Hact as [(parts & out & Hresp & Hcalls)|[_ Hlt]];
      [|lia].
    by rewrite (Hnotools _ _ _ Hre Hresp) in Hcalls.
  - pose proof Hact as Hkind.
    apply activation_recurse in Hkind as [(parts & out & Hresp & Hcalls)|[Hs' _]].
    { by rewrite (Hnotools _ _ _ Hre Hresp) in Hcalls. }
    destruct (IH s') as (o & Hrun & Hnr & Hlm' & Hr');
      [by eapply reentered_next | lia |].
    exists o. split; [exact Hrun|]. split; [done|]. split; lia.
Qed.

(** X16: a turn in which no response carries a tool call and every
    validation resolves ends within four activations, hence with at most
    four requests to the model, whatever the validations answer. *)
Theorem turn_bounded_without_tool_calls (E : Env) (pollFuel : nat) (s0 : Turn) :
  retries s0 = 0 ->
  (forall s parts out,
      Reentered E pollFuel s0 s -> request_response E s = inr (parts, out) ->
      loop_toolCalls (stream_loop parts) = []) ->
  (forall s, Reentered E pollFuel s0 s -> activation E pollFuel s <> None) ->
  exists o,
    runWithFunctions E pollFuel 4 s0 = Some o
    /\ (forall s', o <> Recurse s')
    /\ lm_requests (turn_of o) <= lm_requests s0 + 4
    /\ retries (turn_of o) <= 4.
Proof.
  intros H0 Hnotools Hresolves.
  apply (bounded_run E pollFuel s0 Hnotools Hresolves 3 s0); [constructor | lia].
Qed.

Lemma sample_no_tool_calls :
  forall s parts out,
    request_response Sample.failing_once s = inr (parts, out) ->
    loop_toolCalls (stream_loop parts) = [].
Proof.
  intros s parts out [= <- _]. unfold stream_loop. cbn [fold_left Sample.fenced_response].
  by rewrite !loop_body_toolCalls.
Qed.

Lemma sample_failing_once_resolves :
  forall s,
    Reentered Sample.failing_once 2 (initial_turn Sample.failing_once None []) s ->
    activation Sample.failing_once 2 s <> None.
Proof.
  intros s Hre.
  repeat match type of Hre with
  | Reentered _ _ _ _ =>
      apply Reentered_cases in Hre as [->|(s' & Hact & Hre)];
      [vm_compute; discriminate
      | vm_compute in Hact; try discriminate Hact; injection Hact as <-]
  end.
Qed.

Lemma turn_bounded_without_tool_calls_witness :
  let E := Sample.failing_once in
  let s0 := initial_turn E None [] in
  retries s0 = 0
  /\ exists o,
       runWithFunctions E 2 4 s0 = Some o
       /\ (forall s', o <> Recurse s')
       /\ lm_requests (turn_of o) <= lm_requests s0 + 4
       /\ retries (turn_of o) <= 4.
Proof.
  intros E s0. split; [reflexivity|].
  exact (turn_bounded_without_tool_calls E 2 s0 eq_refl
           (fun s parts out _ H => sample_no_tool_calls s parts out H)
           sample_failing_once_resolves).
Defined.

(** X17: when the validation succeeds the turn returns at once: the chat
    stream ends with the button that carries the normalized diagram text
    (no retry and no closing notice), the retry counter and the messages
    are as they were, the panel holds that diagram and its webview shows
    the diagram page; and the accepted content has no fence. *)
Theorem accepted_turn (E : Env) (pollFuel : nat) (s : Turn)
    (parts : list ResponsePart) (out : list StreamEvent) (s1 : Turn) :
  nothing_to_iterate E s = false ->
  request_response E s = inr (parts, out) ->
  loop_toolCalls (stream_loop parts) = [] ->
  validated E pollFuel (requested s out) (stream_loop parts) = Some (Success, s1) ->
  let d := newDiagram (mermaidDiagram (stream_loop parts)) in
  exists final panel,
    activation E pollFuel s = Some (Return final)
    /\ retries final = retries s
    /\ messages final = messages s
    /\ stream final
       = out ++ emitted (stream_loop parts)
         ++ [progress "Validating mermaid diagram";
             button (COMMAND_OPEN_MARKDOWN_FILE E) (content d)]
    /\ currentPanel final = Some panel
    /\ diagram panel = d
    /\ last (webview_html panel) = Some (HtmlForWebview d)
    /\ Str.includes (content d) fence = false.
Proof.
  intros Hno Hresp Hcalls Hval d.
  destruct (validated_frame _ _ _ _ _ _ Hval) as (Hr & Hm & _ & _ & _ & Hst).
  destruct (validated_createOrShow _ _ _ _ _ _ Hval) as (panel & Hc & Hp).
  exists (accepted_exit E s1 d), panel.
  split.
  { unfold activation, after_response, validate_round.
    by rewrite Hno, Hresp, Hcalls, Hval. }
  cbn. rewrite Hr, Hm, Hst, Hp. cbn.
  split; [done|]. split; [done|]. split; [by rewrite <- !app_assoc|].
  split; [done|].
  apply createOrShow_cases in Hc
    as [(_ & ? & _)|(Hf & pd & this2 & Hpoll & Hres & ->)]; [discriminate|].
  destruct (poll_diagram _ _ _ _ _ _ _ _ Hpoll) as [Hd Hhtml]. cbn in Hd, Hhtml.
  destruct pd; [|discriminate]. unfold diagram. cbn. rewrite Hd.
  split; [done|]. split; [apply last_snoc | done].
Qed.

Lemma accepted_turn_witness :
  let E := Sample.accepting_scenario in
  let s := initial_turn E None [] in
  let l := stream_loop Sample.scenario_response in
  exists s1,
    nothing_to_iterate E s = false
    /\ request_response E s = inr (Sample.scenario_response, stream s)
    /\ loop_toolCalls l = []
    /\ validated E 2 (requested s (stream s)) l = Some (Success, s1)
    /\ exists final panel,
         activation E 2 s = Some (Return final)
         /\ retries final = 0
         /\ stream final
            = stream s ++ emitted l
              ++ [progress "Validating mermaid diagram";
                  button "mermAId.openMarkdownFile" "A-->B"]
         /\ currentPanel final = Some panel
         /\ diagram panel = {| content := "A-->B" |}
         /\ last (webview_html panel) = Some (HtmlForWebview {| content := "A-->B" |}).
Proof.
  intros E s l.
  destruct (validated E 2 (requested s (stream s)) l) as [[[|error] s1]|] eqn:Hval;
    [|vm_compute in Hval; discriminate Hval..].
  exists s1. split; [reflexivity|]. split; [reflexivity|]. split; [reflexivity|].
  split; [reflexivity|].
  destruct (accepted_turn E 2 s Sample.scenario_response (stream s) s1
              eq_refl eq_refl eq_refl Hval)
    as (final & panel & Hact & Hr & _ & Hst & Hp & Hd & Hlast & _).
  exists final, panel.
  split; [exact Hact|]. split; [exact Hr|]. split; [exact Hst|].
  split; [exact Hp|]. split; [exact Hd | exact Hlast].
Defined.

(** X18: a response of prose only (no chunk with two backticks, no tool
    call) is validated all the same, as an empty diagram: the validation
    document for the empty content is given to the webview, and when the
    validation completes the panel's diagram is the empty diagram,
    whatever diagram it held. *)
Theorem prose_only_response_validated (E : Env) (pollFuel : nat) (s : Turn)
    (parts : list ResponsePart) (o : Outcome) :
  has_marker parts = false ->
  loop_toolCalls (stream_loop parts) = [] ->
  after_response E pollFuel s parts = Some o ->
  exists panel,
    currentPanel (turn_of o) = Some panel
    /\ diagram panel = {| content := "" |}
    /\ In (HtmlToValidateMermaid {| content := "" |}
             (pretty (getTime E (lm_requests s))))
          (webview_html panel).
Proof.
  intros Hmark Hcalls [[Hne _]|[_ H]]%after_response_cases; [done|].
  destruct (fold_capture_state parts loop_init eq_refl eq_refl) as (_ & _ & Hd).
  rewrite Hmark in Hd. fold (stream_loop parts) in Hd.
  apply validate_round_cases in H as (result & s1 & Hval & ->).
  destruct (validated_createOrShow _ _ _ _ _ _ Hval) as (panel & Hc & Hp).
  rewrite Hd in Hc. change (newDiagram "") with {| content := "" |} in Hc.
  exists panel.
  assert (currentPanel
            (turn_of match result with
                     | Success =>
                         Return (accepted_exit E s1
                                   (newDiagram (mermaidDiagram (stream_loop parts))))
                     | Failure error =>
                         handle_parse_error s1 (mermaidDiagram (stream_loop parts))
                           error
                     end) = Some panel) as ->.
  { destruct result as [|error]; [exact Hp|].
    destruct (handle_parse_error_frame s1 (mermaidDiagram (stream_loop parts)) error)
      as (_ & _ & _ & -> & _). exact Hp. }
  split; [done|].
  apply createOrShow_cases in Hc
    as [(Hf & _)|(_ & pd & this2 & Hpoll & _ & ->)]; [discriminate|].
  destruct (poll_diagram _ _ _ _ _ _ _ _ Hpoll) as [Hdg Hhtml]. cbn in Hdg, Hhtml.
  unfold diagram.
  destruct pd; cbn; rewrite ?Hdg, ?Hhtml; (split; [done|]);
    rewrite ?in_app_iff; cbn; auto.
Qed.

Lemma prose_only_response_validated_witness :
  let E := Sample.always_failing in
  let s := initial_turn E (Some Sample.panel) [] in
  let parts := [TextPart "Which classes do you mean?"] in
  exists o panel,
    has_marker parts = false
    /\ loop_toolCalls (stream_loop parts) = []
    /\ after_response E 1 s parts = Some o
    /\ diagram Sample.panel = {| content := "graph TD" |}
    /\ currentPanel (turn_of o) = Some panel
    /\ diagram panel = {| content := "" |}.
Proof.
  intros E s parts.
  destruct (after_response E 1 s parts) as [o|] eqn:Hafter;
    [|vm_compute in Hafter; discriminate Hafter].
  destruct (prose_only_response_validated E 1 s parts o eq_refl eq_refl Hafter)
    as (panel & Hp & Hd & _).
  exists o, panel.
  split; [reflexivity|]. split; [reflexivity|]. split; [reflexivity|].
  split; [reflexivity|]. split; [exact Hp | exact Hd].
Defined.

(** ** The navigate handler's path test *)

(** X19: the path test looks at a prefix only: a decoded path that
    starts with a slash or a backslash, or with a drive letter, a colon and
    one of them, is absolute, and so is every path it begins; the empty
    path and a path that starts with a letter not followed by a colon are
    not.  An absolute path is opened as it is, whatever the workspace. *)
Theorem absolute_path_prefix (s : string) :
  (absolutePathRegex_test s = true
   <-> (exists c rest, is_separator c = true /\ s = String c rest)
       \/ (exists l d rest,
              is_letter l = true /\ is_separator d = true
              /\ s = String l (":" +:+ String d rest)))
  /\ (absolutePathRegex_test s = true ->
      forall t joinPath workspaceFolders,
        absolutePathRegex_test (s +:+ t) = true
        /\ navigate_filepath joinPath workspaceFolders s = s)
  /\ absolutePathRegex_test "" = false.
Proof.
  split; [|split; [|done]].
  - split.
    + destruct s as [|c rest]; [discriminate|]. cbn [absolutePathRegex_test].
      intros [[Hl Hrest]%andb_true_iff|Hs]%orb_true_iff.
      * right. destruct rest as [|colon [|d rest]]; try discriminate.
        apply andb_true_iff in Hrest as [Hcolon%Nat.eqb_eq Hd].
        exists c, d, rest. split; [done|]. split; [done|].
        do 2 f_equal. rewrite <- (ascii_nat_embedding colon), Hcolon. done.
      * left. by exists c, rest.
    + intros [(c & rest & Hc & ->)|(l & d & rest & Hl & Hd & ->)];
        cbn [absolutePathRegex_test].
      * rewrite Hc. apply orb_true_r.
      * change (":" +:+ String d rest) with (String ":" (String d rest)).
        by rewrite Hl, Hd.
  - intros Habs t joinPath workspaceFolders. split.
    + destruct s as [|c [|colon [|d rest]]]; try discriminate;
        cbn [absolutePathRegex_test] in *.
      * change (String c "" +:+ t) with (String c t). cbn [absolutePathRegex_test].
        rewrite andb_false_r in Habs. cbn in Habs. rewrite Habs. apply orb_true_r.
      * change (String c (String colon "") +:+ t) with (String c (String colon t)).
        cbn [absolutePathRegex_test]. rewrite andb_false_r in Habs. cbn in Habs.
        rewrite Habs. apply orb_true_r.
      * exact Habs.
    + unfold navigate_filepath. by rewrite Habs.
Qed.

Lemma absolute_path_prefix_witness :
  absolutePathRegex_test "C:\src" = true
  /\ absolutePathRegex_test ("C:\src" +:+ "\a.ts") = true
  /\ navigate_filepath (fun w p => w +:+ "/" +:+ p) (Some ["/w"]) "C:\src" = "C:\src"
  /\ absolutePathRegex_test "C:src" = false
  /\ navigate_filepath (fun w p => w +:+ "/" +:+ p) (Some ["/w"]) "src/a.ts"
     = "/w/src/a.ts".
Proof.
  destruct (proj1 (proj2 (absolute_path_prefix "C:\src")) eq_refl "\a.ts"
              (fun w p => w +:+ "/" +:+ p) (Some ["/w"])) as [H1 H2].
  split; [reflexivity|]. split; [exact H1|]. split; [exact H2|].
  split; reflexivity.
Defined.

(** ** The outline view's loop *)

Lemma outline_no_call E s acc parts :
  forallb (fun p => negb (Outline.is_call p)) parts = true ->
  Outline.stream_loop E s acc parts
  = Outline.after_stream E s (acc +:+ Outline.text_of parts).
Proof.
  revert acc. induction parts as [|[v|call|] parts IH]; intros acc Hno; cbn.
  - by rewrite append_nil_r.
  - rewrite IH by done. by rewrite append_assoc.
  - discriminate.
  - by apply IH.
Qed.

(** X20: the outline loop leaves the response at its first tool call:
    what the activation does is decided by that call alone, not by the text
    before it nor by any part after it.  For a registered tool whose
    parameters parse and whose invocation succeeds, the loop re-enters with
    three messages appended, the call, its result and a closing user
    message, and with the retry counter unchanged. *)
Theorem outline_first_tool_call (E : Outline.Env) (s : Outline.State) (acc : string)
    (before after : list Outline.Part) (call : Outline.ToolCall) (text : string) :
  forallb (fun p => negb (Outline.is_call p)) before = true ->
  existsb (String.eqb (Outline.name call)) (Outline.tools E) = true ->
  Outline.JSON_parse_error E (Outline.parameters call) = None ->
  Outline.invokeTool E (Outline.invocations s) (Outline.name call)
    (Outline.parameters call) = inr text ->
  exists s',
    Outline.stream_loop E s acc (before ++ Outline.Call call :: after)
    = Outline.Recurse s'
    /\ Outline.messages s'
       = Outline.messages s
         ++ [Outline.AssistantCalls [call];
             Outline.UserResult (Outline.toolCallId call) text;
             Outline.User (Outline.summary [Outline.name call])]
    /\ Outline.retries s' = Outline.retries s
    /\ Outline.invocations s' = S (Outline.invocations s)
    /\ Outline.validations s' = Outline.validations s.
Proof.
  intros Hno Hknown Hparse Hinvoke.
  assert (Outline.stream_loop E s acc (before ++ Outline.Call call :: after)
          = Outline.on_tool_call E s call) as ->.
  { revert acc. induction before as [|[v|c|] before IH]; intros acc; cbn in *;
      try done; by apply IH. }
  unfold Outline.on_tool_call. rewrite Hknown. cbn [negb].
  rewrite Hparse. cbn [Outline.with_log Outline.invocations]. rewrite Hinvoke.
  eexists. split; [reflexivity|]. cbn. by rewrite <- app_assoc.
Qed.

Lemma outline_first_tool_call_witness :
  let E := OutlineSample.never_valid in
  let call := OutlineSample.lookup in
  exists s',
    Outline.stream_loop E OutlineSample.start ""
      ([Outline.Text "```mermaid"] ++ Outline.Call call :: [Outline.Text "graph TD"])
    = Outline.Recurse s'
    /\ Outline.messages s'
       = [Outline.User "outline"; Outline.AssistantCalls [call];
          Outline.UserResult "call_7" "class A";
          Outline.User (Outline.summary ["mermAId_get_symbol_definition"])]
    /\ Outline.retries s' = 0.
Proof.
  intros E call.
  destruct (outline_first_tool_call E OutlineSample.start "" [Outline.Text "```mermaid"]
              [Outline.Text "graph TD"] call "class A" eq_refl eq_refl eq_refl eq_refl)
    as (s' & H1 & H2 & H3 & _).
  exists s'. split; [exact H1|]. split; [exact H2 | exact H3].
Defined.

(** X21: a tool call that names no registered tool, or whose parameters
    do not parse, makes the activation throw at that call: no tool is
    invoked, the messages are as they were, and nothing is validated. *)
Theorem outline_bad_tool_call (E : Outline.Env) (s : Outline.State) (acc : string)
    (before after : list Outline.Part) (call : Outline.ToolCall) :
  forallb (fun p => negb (Outline.is_call p)) before = true ->
  existsb (String.eqb (Outline.name call)) (Outline.tools E) = false
  \/ Outline.JSON_parse_error E (Outline.parameters call) <> None ->
  exists error s',
    Outline.stream_loop E s acc (before ++ Outline.Call call :: after)
    = Outline.Throw error s'
    /\ Outline.messages s' = Outline.messages s
    /\ Outline.invocations s' = Outline.invocations s
    /\ Outline.validations s' = Outline.validations s
    /\ (existsb (String.eqb (Outline.name call)) (Outline.tools E) = false ->
        error = "Tool " +:+ Outline.name call +:+ " invalid").
Proof.
  intros Hno Hbad.
  assert (Outline.stream_loop E s acc (before ++ Outline.Call call :: after)
          = Outline.on_tool_call E s call) as ->.
  { revert acc. induction before as [|[v|c|] before IH]; intros acc; cbn in *;
      try done; by apply IH. }
  unfold Outline.on_tool_call.
  destruct (existsb _ (Outline.tools E)) eqn:Hknown; cbn [negb].
  - destruct Hbad as [?|Hparse]; [done|].
    destruct (Outline.JSON_parse_error E _) as [err|]; [|done].
    eexists _, _. split; [reflexivity|]. by cbn.
  - eexists _, _. split; [reflexivity|]. by cbn.
Qed.

Lemma outline_bad_tool_call_witness :
  exists s',
    Outline.stream_loop OutlineSample.never_valid OutlineSample.start ""
      ([Outline.Text "```mermaid"] ++ Outline.Call OutlineSample.unknown :: [])
    = Outline.Throw "Tool no_such_tool invalid" s'
    /\ Outline.messages s' = Outline.messages OutlineSample.start
    /\ Outline.invocations s' = 0.
Proof.
  destruct (outline_bad_tool_call OutlineSample.never_valid OutlineSample.start ""
              [Outline.Text "```mermaid"] [] OutlineSample.unknown eq_refl
              (or_introl eq_refl))
    as (error & s' & H1 & H2 & H3 & _ & H5).
  rewrite (H5 eq_refl) in H1. exists s'. split; [exact H1|]. split; [exact H2 | exact H3].
Defined.

Lemma outline_reentered_head E s s' s'' :
  Outline.activation E s = Outline.Recurse s' ->
  Outline.Reentered E s' s'' -> Outline.Reentered E s s''.
Proof.
  intros Hact. induction 1 as [|t t' Hre IH Ht].
  - eapply Outline.reentered_next; [constructor | exact Hact].
  - by eapply Outline.reentered_next.
Qed.

(** An activation whose response carries no tool call validates the text
    of the response: it returns it when the validation succeeds or two
    retries were made, and retries otherwise. *)
Lemma outline_activation_no_call E s :
  forallb (fun p => negb (Outline.is_call p))
    (Outline.sendRequest E (Outline.requests s) (Outline.messages s)) = true ->
  let raw :=
    Outline.text_of (Outline.sendRequest E (Outline.requests s) (Outline.messages s)) in
  let valid :=
    Outline.success (Outline.generateWithValidation E (Outline.validations s) raw) in
  exists s',
    Outline.activation E s
    = (if valid || (2 <=? Outline.retries s)%nat
       then Outline.Return (Some raw) s' else Outline.Recurse s')
    /\ Outline.retries s' = (if valid then Outline.retries s else S (Outline.retries s))
    /\ Outline.validations s' = S (Outline.validations s)
    /\ Outline.requests s' = S (Outline.requests s)
    /\ Outline.invocations s' = Outline.invocations s.
Proof.
  intros Hno raw valid. unfold Outline.activation.
  rewrite outline_no_call by done. change ("" +:+ ?x) with x. fold raw.
  unfold Outline.after_stream. cbn [Outline.with_log Outline.validations
    Outline.retries Outline.messages Outline.log Outline.requests
    Outline.invocations].
  fold valid. destruct valid; cbn [orb].
  - eexists. split; [reflexivity|]. by cbn.
  - destruct (Nat.ltb_spec (Outline.retries s) 2) as [Hlt|Hge].
    + apply Nat.leb_gt in Hlt. rewrite Hlt.
      eexists. split; [reflexivity|]. by cbn.
    + apply Nat.leb_le in Hge. rewrite Hge.
      eexists. split; [reflexivity|]. by cbn.
Qed.

Lemma outline_bounded_run E :
  (forall n msgs,
      forallb (fun p => negb (Outline.is_call p)) (Outline.sendRequest E n msgs) = true) ->
  forall k s,
    Outline.retries s + k = 2 ->
    exists raw final last,
      Outline.runWithTools E (S k) s = Some (Outline.Return (Some raw) final)
      /\ Outline.Reentered E s last
      /\ raw = Outline.text_of
                 (Outline.sendRequest E (Outline.requests last) (Outline.messages last))
      /\ (Outline.success
            (Outline.generateWithValidation E (Outline.validations last) raw) = false ->
          Outline.retries last = 2)
      /\ Outline.validations final <= Outline.validations s + S k
      /\ Outline.requests final <= Outline.requests s + S k
      /\ Outline.invocations final = Outline.invocations s.
Proof.
  intros Hno. induction k as [|k IH]; intros s Hk;
    destruct (outline_activation_no_call E s (Hno _ _))
      as (s' & Hact & Hr & Hv & Hq & Hi);
    cbn [Outline.runWithTools]; rewrite Hact;
    destruct (Outline.success _) eqn:Hvalid; cbn [orb].
  - eexists _, s', s. split; [reflexivity|]. split; [constructor|].
    split; [reflexivity|]. split; [congruence|]. split; [lia|]. split; [lia | done].
  - replace (2 <=? Outline.retries s)%nat with true
      by (symmetry; apply Nat.leb_le; lia).
    eexists _, s', s. split; [reflexivity|]. split; [constructor|].
    split; [reflexivity|]. split; [intros _; lia|]. split; [lia|].
    split; [lia | done].
  - eexists _, s', s. split; [reflexivity|]. split; [constructor|].
    split; [reflexivity|]. split; [congruence|]. split; [lia|]. split; [lia | done].
  - cbn [orb] in Hact.
    replace (2 <=? Outline.retries s)%nat with false
      by (symmetry; apply Nat.leb_gt; lia).
    replace (2 <=? Outline.retries s)%nat with false in Hact
      by (symmetry; apply Nat.leb_gt; lia).
    destruct (IH s') as (raw & final & last & Hrun & Hre & Hraw & Hlast & Hv' & Hq' & Hi');
      [lia|].
    exists raw, final, last. split; [exact Hrun|].
    split; [by eapply outline_reentered_head|]. split; [done|]. split; [done|].
    split; [lia|]. split; [lia | congruence].
Qed.

(** X22: when no response carries a tool call, the outline loop returns
    a diagram within three activations, three requests and three
    validations, and never nothing: the diagram is made of the text of the
    last response, and either it passed its validation or it is the third
    candidate to fail, returned although invalid. *)
Theorem outline_bounded (E : Outline.Env) (s0 : Outline.State) :
  Outline.retries s0 = 0 ->
  (forall n msgs,
      forallb (fun p => negb (Outline.is_call p)) (Outline.sendRequest E n msgs) = true) ->
  exists raw final last,
    Outline.runWithTools E 3 s0 = Some (Outline.Return (Some raw) final)
    /\ Outline.Reentered E s0 last
    /\ raw = Outline.text_of
               (Outline.sendRequest E (Outline.requests last) (Outline.messages last))
    /\ (Outline.success
          (Outline.generateWithValidation E (Outline.validations last) raw) = false ->
        Outline.retries last = 2)
    /\ Outline.validations final <= Outline.validations s0 + 3
    /\ Outline.requests final <= Outline.requests s0 + 3
    /\ Outline.invocations final = Outline.invocations s0.
Proof.
  intros H0 Hno. apply (outline_bounded_run E Hno 2 s0). lia.
Qed.

Lemma outline_bounded_witness :
  let E := OutlineSample.never_valid in
  Outline.retries OutlineSample.start = 0
  /\ (forall n msgs,
        forallb (fun p => negb (Outline.is_call p)) (Outline.sendRequest E n msgs)
        = true)
  /\ exists final,
       Outline.runWithTools E 3 OutlineSample.start
       = Some (Outline.Return (Some "```mermaidd2") final)
       /\ Outline.validations final = 3
       /\ Outline.retries final = 3.
Proof.
  intros E. split; [reflexivity|]. split; [reflexivity|].
  destruct (outline_bounded E OutlineSample.start eq_refl (fun _ _ => eq_refl))
    as (raw & final & last & Hrun & _).
  assert (Outline.runWithTools E 3 OutlineSample.start
          = Some (Outline.Return (Some raw) final)) as Hrun' by exact Hrun.
  vm_compute in Hrun'. injection Hrun' as <- <-.
  eexists. split; [exact Hrun|]. split; reflexivity.
Defined.

(** ** The stream loop: nothing is lost *)

Lemma loop_body_text_split st part :
  (isMermaidDiagramStreamingIn st = false -> mermaidDiagram st = "") ->
  (isMermaidDiagramStreamingIn (loop_body st part) = false ->
   mermaidDiagram (loop_body st part) = "")
  /\ responseStr (loop_body st part) +:+ mermaidDiagram (loop_body st part)
     = (responseStr st +:+ mermaidDiagram st)
       +:+ match text_value part with Some v => v | None => "" end.
Proof.
  intros Hinv. destruct (text_value part) as [v|] eqn:Hv.
  - unfold loop_body. rewrite (adapt_text part v Hv).
    destruct (isMermaidDiagramStreamingIn st) eqn:Hs; cbn [negb andb].
    + cbn. rewrite Hs. cbn. split; [done|]. by rewrite append_assoc.
    + rewrite (Hinv eq_refl).
      destruct (Str.includes v fence_open_marker); cbn.
      * split; [done|]. by rewrite append_nil_r.
      * rewrite Hs. cbn. rewrite (Hinv eq_refl). split; [done|].
        by rewrite !append_nil_r.
  - destruct (loop_body_other st part Hv) as (Hs & Hd & _).
    assert (responseStr (loop_body st part) = responseStr st) as Hr.
    { unfold loop_body, text_value in *. destruct (adapt part); try discriminate; done. }
    rewrite Hs, Hd, Hr. split; [done|]. by rewrite append_nil_r.
Qed.

(** X23: the loop loses no text and duplicates none: the prose recorded
    for the round followed by the diagram buffer is the text of all the
    text chunks of the response, in their order. *)
Theorem text_is_split (parts : list ResponsePart) :
  responseStr (stream_loop parts) +:+ mermaidDiagram (stream_loop parts)
  = appended (text_values parts).
Proof.
  unfold stream_loop.
  assert (forall st,
            (isMermaidDiagramStreamingIn st = false -> mermaidDiagram st = "") ->
            responseStr (fold_left loop_body parts st)
            +:+ mermaidDiagram (fold_left loop_body parts st)
            = (responseStr st +:+ mermaidDiagram st) +:+ appended (text_values parts))
    as H.
  { induction parts as [|part parts IH]; intros st Hinv; cbn [fold_left].
    - by rewrite append_nil_r.
    - destruct (loop_body_text_split st part Hinv) as [Hinv' Heq].
      rewrite (IH _ Hinv'), Heq, text_values_cons.
      destruct (text_value part); [by rewrite append_assoc | by rewrite append_nil_r]. }
  by rewrite H.
Qed.

Lemma stream_loop_essential_witness :
  stream_loop [GroqChunk (Some "a``b"); GroqChunk None; OtherPart; GroqChunk (Some "")]
  = stream_loop [TextPart "a``b"]
  /\ ("a``b" <> "" -> essential (GroqChunk (Some "a``b")) = Some (TextPart "a``b")).
Proof.
  destruct (stream_loop_essential
              [GroqChunk (Some "a``b"); GroqChunk None; OtherPart; GroqChunk (Some "")])
    as (H1 & H2 & _).
  split; [exact H1 | exact (H2 "a``b")].
Defined.
